(** * Field comparison and scoring engine of the flight-agent evaluator

    A shallow embedding of the comparison functions of [eval-final.js]
    ([timeToMinutes], [getTimeDiffMinutes], [compareField],
    [compareAllFields]), of [lib/aircraft-utils.js] ([AIRCRAFT_FAMILIES],
    [isSameFamily]) and of [lib/metrics.js] ([calculateFieldMetrics],
    [calculateAllMetrics], [getSummaryStats]), followed by the properties
    of the specification that concern them.

    Conventions of the embedding.
    - A JavaScript number is a [jsnum]: a rational, one of the two
      infinities, or NaN.  Arithmetic on rationals is exact: rounding to
      binary64, the overflow of an intermediate result and the sign of
      zero are not modelled.  The code and the model therefore agree
      where every intermediate value is a number binary64 holds exactly,
      as the integers of magnitude up to 2^53 are: the minutes of a
      duration, the counts of a batch.  A property that relates values
      which binary64 would round (ratios of counts, their harmonic mean,
      fractional minutes) is stated only where rounding, being monotone,
      preserves it.
    - A string is the UTF-8 text of the JavaScript string, one [ascii] per
      byte.
    - A field value is a [jsval]: [undefined], [null] or a string, which is
      what the Zod schema [z.string().nullable()] and a missing property
      can yield.
    - A JavaScript object used as a dictionary is a [gmap string _]; a
      missing property reads as [undefined].  The properties every object
      inherits from [Object.prototype] are not in the map: reading
      [o[k]] is modelled for the names [k] that are not among them
      ([inherited_key]). *)

From Stdlib Require Import QArith Qabs ZArith Ascii String List Lia.
From Stdlib Require Import Decimal DecimalString DecimalNat Lqa.
From stdpp Require Import gmap strings list fin_maps.

Local Open Scope Z_scope.

(* ===================================================================== *)
(** ** JavaScript numbers, values and the string primitives used *)
(* ===================================================================== *)

Module JS.

(** Numbers. *)
Inductive jsnum : Type :=
| Fin (q : Q)
| PosInf
| NegInf
| NaN.

Definition q_is_zero (q : Q) : bool := Z.eqb (Qnum q) 0.
Definition q_is_pos (q : Q) : bool := Z.ltb 0 (Qnum q).

Definition of_nat (n : nat) : jsnum := Fin (inject_Z (Z.of_nat n)).
Definition of_Z (z : Z) : jsnum := Fin (inject_Z z).

Definition js_neg (a : jsnum) : jsnum :=
  match a with
  | Fin q => Fin (Qred (- q))
  | PosInf => NegInf
  | NegInf => PosInf
  | NaN => NaN
  end.

(** [a + b] *)
Definition js_add (a b : jsnum) : jsnum :=
  match a, b with
  | NaN, _ | _, NaN => NaN
  | Fin x, Fin y => Fin (Qred (x + y))
  | PosInf, NegInf | NegInf, PosInf => NaN
  | PosInf, _ | _, PosInf => PosInf
  | NegInf, _ | _, NegInf => NegInf
  end.

(** [a - b] *)
Definition js_sub (a b : jsnum) : jsnum := js_add a (js_neg b).

(** An infinity of the sign of [q], NaN when [q] is zero: the value of
    [Infinity * q]. *)
Definition inf_signed (q : Q) : jsnum :=
  if q_is_zero q then NaN else if q_is_pos q then PosInf else NegInf.

(** [a * b] *)
Definition js_mul (a b : jsnum) : jsnum :=
  match a, b with
  | NaN, _ | _, NaN => NaN
  | Fin x, Fin y => Fin (Qred (x * y))
  | PosInf, Fin y | Fin y, PosInf => inf_signed y
  | NegInf, Fin y | Fin y, NegInf => js_neg (inf_signed y)
  | PosInf, PosInf | NegInf, NegInf => PosInf
  | PosInf, NegInf | NegInf, PosInf => NegInf
  end.

(** [a / b].  Dividing a non-zero number by zero gives an infinity and
    [0 / 0] gives NaN. *)
Definition js_div (a b : jsnum) : jsnum :=
  match a, b with
  | NaN, _ | _, NaN => NaN
  | Fin x, Fin y =>
      if q_is_zero y then inf_signed x else Fin (Qred (x / y))
  | Fin _, (PosInf | NegInf) => Fin 0
  | PosInf, Fin y => if q_is_zero y || q_is_pos y then PosInf else NegInf
  | NegInf, Fin y => if q_is_zero y || q_is_pos y then NegInf else PosInf
  | (PosInf | NegInf), (PosInf | NegInf) => NaN
  end.

(** [Math.abs(a)] *)
Definition js_abs (a : jsnum) : jsnum :=
  match a with
  | Fin q => Fin (Qred (Qabs q))
  | PosInf | NegInf => PosInf
  | NaN => NaN
  end.

(** [a <= b]; every comparison with NaN is false. *)
Definition js_le (a b : jsnum) : bool :=
  match a, b with
  | NaN, _ | _, NaN => false
  | Fin x, Fin y => Qle_bool x y
  | NegInf, _ => true
  | _, PosInf => true
  | _, _ => false
  end.

(** [a > b] *)
Definition js_gt (a b : jsnum) : bool :=
  match a, b with
  | NaN, _ | _, NaN => false
  | Fin x, Fin y => negb (Qle_bool x y)
  | PosInf, (Fin _ | NegInf) => true
  | Fin _, NegInf => true
  | _, _ => false
  end.

(** Truthiness of a number: [0] and NaN are falsy. *)
Definition num_truthy (a : jsnum) : bool :=
  match a with
  | Fin q => negb (q_is_zero q)
  | NaN => false
  | _ => true
  end.

Definition is_finite (a : jsnum) : Prop :=
  match a with Fin _ => True | _ => False end.

(** Values a field of a flight record can hold. *)
Inductive jsval : Type :=
| Undefined
| Null
| Str (s : string).

Definition jsval_eqb (a b : jsval) : bool :=
  match a, b with
  | Undefined, Undefined => true
  | Null, Null => true
  | Str s, Str t => String.eqb s t
  | _, _ => false
  end.

(** [a === b] *)
Definition strict_eq (a b : jsval) : bool := jsval_eqb a b.

(** Truthiness: [undefined], [null] and the empty string are falsy. *)
Definition truthy (v : jsval) : bool :=
  match v with
  | Undefined | Null => false
  | Str s => negb (String.eqb s "")
  end.

(** Reading a property of an object: [o[k]]. *)
Definition get {V} (dflt : V) (o : gmap string V) (k : string) : V :=
  default dflt (o !! k).

(** [s.split(':')]: the pieces between the colons, at least one piece. *)
Fixpoint split_colon (s : string) : list string :=
  match s with
  | EmptyString => [EmptyString]
  | String c r =>
      if Ascii.eqb c ":"%char then EmptyString :: split_colon r
      else match split_colon r with
           | h :: t => String c h :: t
           | [] => [String c EmptyString]
           end
  end.

(** The names of the properties of [Object.prototype], which a read
    [o[k]] finds on every object that has no property [k] of its own. *)
Definition Object_prototype_keys : list string :=
  ["constructor"; "__defineGetter__"; "__defineSetter__"; "hasOwnProperty";
   "__lookupGetter__"; "__lookupSetter__"; "isPrototypeOf";
   "propertyIsEnumerable"; "toString"; "valueOf"; "__proto__";
   "toLocaleString"]%string.

Definition inherited_key (k : string) : bool :=
  existsb (String.eqb k) Object_prototype_keys.

(** *** [Number(s)] on a string (StringToNumber)

    White space is trimmed; the empty string is 0; then a hexadecimal,
    octal or binary integer literal, or an optionally signed [Infinity] or
    decimal literal with optional fraction and exponent; anything else is
    NaN.  The value is the one the literal writes, not rounded; a
    magnitude that binary64 rounds to an infinity gives that infinity. *)

(** The white space and line terminators of one byte: U+0009 to U+000D
    and U+0020. *)
Definition is_ws (c : ascii) : bool :=
  let n := nat_of_ascii c in
  (Nat.leb 9 n && Nat.leb n 13) || Nat.eqb n 32.

(** Of two bytes: U+00A0. *)
Definition is_ws2 (c1 c2 : ascii) : bool :=
  Nat.eqb (nat_of_ascii c1) 194 && Nat.eqb (nat_of_ascii c2) 160.

(** Of three bytes: U+1680, U+2000 to U+200A, U+2028, U+2029, U+202F,
    U+205F, U+3000 and U+FEFF. *)
Definition is_ws3 (c1 c2 c3 : ascii) : bool :=
  let a := nat_of_ascii c1 in
  let b := nat_of_ascii c2 in
  let c := nat_of_ascii c3 in
  (Nat.eqb a 225 && Nat.eqb b 154 && Nat.eqb c 128)
  || (Nat.eqb a 226 && Nat.eqb b 128
      && ((Nat.leb 128 c && Nat.leb c 138) || Nat.eqb c 168 || Nat.eqb c 169
          || Nat.eqb c 175))
  || (Nat.eqb a 226 && Nat.eqb b 129 && Nat.eqb c 159)
  || (Nat.eqb a 227 && Nat.eqb b 128 && Nat.eqb c 128)
  || (Nat.eqb a 239 && Nat.eqb b 187 && Nat.eqb c 191).

(** Dropping the white space a list of bytes starts with; with [back],
    the list is a reversed text and so are the bytes of a character. *)
Fixpoint drop_ws (back : bool) (l : list ascii) : list ascii :=
  match l with
  | c :: r =>
      if is_ws c then drop_ws back r
      else
        match r with
        | c1 :: r1 =>
            if (if back then is_ws2 c1 c else is_ws2 c c1)
            then drop_ws back r1
            else
              match r1 with
              | c2 :: r2 =>
                  if (if back then is_ws3 c2 c1 c else is_ws3 c c1 c2)
                  then drop_ws back r2
                  else l
              | [] => l
              end
        | [] => l
        end
  | [] => []
  end.

Definition trim (l : list ascii) : list ascii :=
  rev (drop_ws true (rev (drop_ws false l))).

(** The magnitudes from [2^1024 - 2^970] on round to an infinity. *)
Definition overflow_from : Z := 2 ^ 1024 - 2 ^ 970.

Definition overflow (v : jsnum) : jsnum :=
  match v with
  | Fin q =>
      if Qle_bool (inject_Z overflow_from) (Qabs q)
      then (if q_is_pos q then PosInf else NegInf)
      else v
  | _ => v
  end.

(** Value of a digit in base at most 16, if [c] is one. *)
Definition digit_of (c : ascii) : option Z :=
  let n := Z.of_nat (nat_of_ascii c) in
  if (48 <=? n) && (n <=? 57) then Some (n - 48)
  else if (97 <=? n) && (n <=? 102) then Some (n - 87)
  else if (65 <=? n) && (n <=? 70) then Some (n - 55)
  else None.

Definition digit_in (base : Z) (c : ascii) : option Z :=
  match digit_of c with
  | Some d => if d <? base then Some d else None
  | None => None
  end.

(** The longest prefix of digits of the base, most significant first, and
    what follows it. *)
Fixpoint span_digits (base : Z) (l : list ascii) : list Z * list ascii :=
  match l with
  | c :: r =>
      match digit_in base c with
      | Some d => let '(ds, rest) := span_digits base r in (d :: ds, rest)
      | None => ([], l)
      end
  | [] => ([], [])
  end.

Definition digits_value (base : Z) (ds : list Z) : Z :=
  fold_left (fun acc d => acc * base + d) ds 0.

(** [m * 10^e] as a number. *)
Definition scale10 (m e : Z) : jsnum :=
  if 0 <=? e then Fin (inject_Z (m * 10 ^ e))
  else Fin (Qred (Qmake m (Z.to_pos (10 ^ (- e))))).

(** An integer literal in the given base: one digit at least, nothing
    after the digits. *)
Definition parse_radix (base : Z) (l : list ascii) : jsnum :=
  match span_digits base l with
  | ((_ :: _) as ds, []) => of_Z (digits_value base ds)
  | _ => NaN
  end.

(** The exponent part, possibly absent: [e] or [E], an optional sign and
    one digit at least. *)
Definition parse_exponent (l : list ascii) : option Z :=
  match l with
  | [] => Some 0
  | c :: r =>
      if Ascii.eqb c "e"%char || Ascii.eqb c "E"%char then
        let '(neg, r') :=
          match r with
          | s :: r1 =>
              if Ascii.eqb s "-"%char then (true, r1)
              else if Ascii.eqb s "+"%char then (false, r1)
              else (false, r)
          | [] => (false, r)
          end in
        match span_digits 10 r' with
        | ((_ :: _) as ds, []) =>
            Some (if neg then - digits_value 10 ds else digits_value 10 ds)
        | _ => None
        end
      else None
  end.

(** An unsigned decimal literal: [123], [12.5], [12.], [.5], each with an
    optional exponent. *)
Definition parse_unsigned_decimal (l : list ascii) : jsnum :=
  let '(ip, r1) := span_digits 10 l in
  let '(fp, r2, ok) :=
    match r1 with
    | c :: r =>
        if Ascii.eqb c "."%char then
          let '(fp, r2) := span_digits 10 r in
          (fp, r2, negb (Nat.eqb (length ip + length fp) 0))
        else ([], r1, negb (Nat.eqb (length ip) 0))
    | [] => ([], r1, negb (Nat.eqb (length ip) 0))
    end in
  if ok then
    match parse_exponent r2 with
    | Some e =>
        scale10 (digits_value 10 (ip ++ fp)) (e - Z.of_nat (length fp))
    | None => NaN
    end
  else NaN.

Definition infinity_word : list ascii := list_ascii_of_string "Infinity".

Definition list_ascii_eqb (a b : list ascii) : bool :=
  String.eqb (string_of_list_ascii a) (string_of_list_ascii b).

Definition parse_signed_decimal (l : list ascii) : jsnum :=
  let '(neg, body) :=
    match l with
    | c :: r =>
        if Ascii.eqb c "-"%char then (true, r)
        else if Ascii.eqb c "+"%char then (false, r)
        else (false, l)
    | [] => (false, l)
    end in
  let v := if list_ascii_eqb body infinity_word then PosInf
           else parse_unsigned_decimal body in
  if neg then js_neg v else v.

(** The value the trimmed text writes. *)
Definition numeric_literal (l : list ascii) : jsnum :=
  match l with
  | [] => Fin 0
  | (c0 :: c1 :: r) as l =>
      if Ascii.eqb c0 "0"%char then
        if Ascii.eqb c1 "x"%char || Ascii.eqb c1 "X"%char then parse_radix 16 r
        else if Ascii.eqb c1 "o"%char || Ascii.eqb c1 "O"%char then parse_radix 8 r
        else if Ascii.eqb c1 "b"%char || Ascii.eqb c1 "B"%char then parse_radix 2 r
        else parse_signed_decimal l
      else parse_signed_decimal l
  | l => parse_signed_decimal l
  end.

Definition Number (s : string) : jsnum :=
  overflow (numeric_literal (trim (list_ascii_of_string s))).

End JS.

Import JS.

(* ===================================================================== *)
(** ** lib/aircraft-utils.js *)
(* ===================================================================== *)

Module AircraftUtils.

Local Open Scope string_scope.

(** The family table, in the order of the source ([Object.entries]
    enumerates the families in insertion order). *)
Definition AIRCRAFT_FAMILIES : list (string * list string) :=
  [ ("Boeing 737", ["Boeing 737NG"; "Boeing 737MAX"; "Boeing 717"]);
    ("Boeing 777", ["Boeing 777"; "Boeing 777-200"; "Boeing 777-300ER"]);
    ("Boeing 787", ["Boeing 787"; "Boeing 787-8"; "Boeing 787-9"; "Boeing 787-10"]);
    ("Boeing 747", ["Boeing 747"; "Boeing 747-400"; "Boeing 747-8"]);
    ("Boeing 757", ["Boeing 757"; "Boeing 757-200"; "Boeing 757-300"]);
    ("Boeing 767", ["Boeing 767"; "Boeing 767-300"; "Boeing 767-400"]);
    ("Airbus A320", ["Airbus A319"; "Airbus A320"; "Airbus A321"]);
    ("Airbus A330", ["Airbus A330"; "Airbus A330-200"; "Airbus A330-300"; "Airbus A330-900"]);
    ("Airbus A350", ["Airbus A350"; "Airbus A350-900"; "Airbus A350-1000"]);
    ("Airbus A380", ["Airbus A380"; "Airbus A380-800"]);
    ("Embraer E170", ["Embraer E170"; "Embraer E175"]);
    ("Embraer E190", ["Embraer E190"; "Embraer E195"]);
    ("Embraer E175-E2", ["Embraer E175-E2"; "Embraer E170-E2"]);
    ("Embraer E190-E2", ["Embraer E190-E2"; "Embraer E195-E2"]);
    ("Bombardier CRJ", ["Bombardier CRJ"; "Bombardier CRJ-200"; "Bombardier CRJ-700"; "Bombardier CRJ-900"]);
    ("ATR 42/72", ["ATR 42/72"; "ATR 42"; "ATR 72"]);
    ("DHC Dash 8", ["DHC Dash 8"; "DHC Dash 8-400"]) ].

(** [members.includes(v)]: the members are strings, so only a string can
    be included. *)
Definition includes (members : list string) (v : jsval) : bool :=
  existsb (fun m => strict_eq (Str m) v) members.

(** [isSameFamily(aircraft1, aircraft2)] *)
Definition isSameFamily (aircraft1 aircraft2 : jsval) : bool :=
  if negb (truthy aircraft1) || negb (truthy aircraft2) then false
  else if strict_eq aircraft1 aircraft2 then true
  else
    existsb (fun '(family, members) =>
               includes members aircraft1 && includes members aircraft2)
            AIRCRAFT_FAMILIES.

End AircraftUtils.

Import AircraftUtils.

(* ===================================================================== *)
(** ** eval-final.js: the field comparator *)
(* ===================================================================== *)

Module Comparator.

Local Open Scope string_scope.

(** The result of comparing one field.  [fc_match] is the source's
    [match]: [Some true], [Some false] or [None] for [null], the mark of a
    field excluded from scoring.  [fc_grade] is [None] for [null]. *)
Record FieldComparison : Type := mkFC {
  fc_match : option bool;
  fc_grade : option jsnum
}.

(** [timeToMinutes(timeStr)]; [None] is the [null] the source returns for
    a missing value.  The destructuring [[hours, mins]] takes the first two
    pieces; a missing second piece is [undefined], which makes the sum
    NaN. *)
Definition timeToMinutes (timeStr : jsval) : option jsnum :=
  if negb (truthy timeStr) || strict_eq timeStr (Str "null") then None
  else
    match timeStr with
    | Str s =>
        let parts := map Number (split_colon s) in
        let hours := nth 0 parts NaN in
        let mins := nth 1 parts NaN in
        Some (js_add (js_mul hours (of_Z 60)) mins)
    | _ => None
    end.

(** [getTimeDiffMinutes(time1, time2)] *)
Definition getTimeDiffMinutes (time1 time2 : jsval) : jsnum :=
  match timeToMinutes time1, timeToMinutes time2 with
  | Some mins1, Some mins2 => js_abs (js_sub mins1 mins2)
  | _, _ => PosInf
  end.

(** The guard that opens [compareField]:
    [!extracted || extracted === 'null' || extracted === null]. *)
Definition is_missing (extracted : jsval) : bool :=
  negb (truthy extracted) || strict_eq extracted (Str "null")
  || strict_eq extracted Null.

Definition grade_0_0 : jsnum := Fin 0.0.
Definition grade_0_7 : jsnum := Fin 0.7.
Definition grade_0_8 : jsnum := Fin 0.8.
Definition grade_1_0 : jsnum := Fin 1.0.

(** [compareField(field, extracted, groundTruth)] *)
Definition compareField (field : string) (extracted groundTruth : jsval)
  : FieldComparison :=
  if is_missing extracted then mkFC (Some false) (Some grade_0_0)
  else if String.eqb field "flightNumber" then mkFC None None
  else if String.eqb field "airlineCode"
          || String.eqb field "departureAirportCode"
          || String.eqb field "arrivalAirportCode"
          || String.eqb field "flightDate" then
    mkFC (Some (strict_eq extracted groundTruth))
         (Some (if strict_eq extracted groundTruth then grade_1_0 else grade_0_0))
  else if String.eqb field "aircraftName" then
    if strict_eq extracted groundTruth then mkFC (Some true) (Some grade_1_0)
    else if isSameFamily extracted groundTruth then mkFC (Some true) (Some grade_0_8)
    else mkFC (Some false) (Some grade_0_0)
  else if String.eqb field "flightTime" then
    let diff := getTimeDiffMinutes extracted groundTruth in
    if js_le diff (of_Z 15) then mkFC (Some true) (Some grade_1_0)
    else if js_le diff (of_Z 30) then mkFC (Some true) (Some grade_0_7)
    else mkFC (Some false) (Some grade_0_0)
  else mkFC (Some false) (Some grade_0_0).

Definition all_fields : list string :=
  ["flightNumber"; "airlineCode"; "departureAirportCode";
   "arrivalAirportCode"; "flightDate"; "aircraftName"; "flightTime"].

(** [compareAllFields(extracted, groundTruth)] *)
Definition compareAllFields (extracted groundTruth : gmap string jsval)
  : gmap string FieldComparison :=
  fold_left
    (fun comparison field =>
       <[field := compareField field (get Undefined extracted field)
                               (get Undefined groundTruth field)]> comparison)
    all_fields ∅.

End Comparator.

Import Comparator.

(* ===================================================================== *)
(** ** lib/metrics.js: the aggregate scorer *)
(* ===================================================================== *)

Module Metrics.

Local Open Scope string_scope.

(** One evaluation result, as [runEvaluation] builds it.  Of its
    properties the scorer reads [extracted], [comparison] and [flags];
    [query], [groundTruth] and [duration] are left out.  [extracted] is
    always an object ([calculateFieldMetrics] reads [r.extracted[field]]
    unguarded); [comparison] and [flags] are guarded by the scorer and may
    be missing ([None]).  The elements that lack [extracted], on which the
    scorer throws, are those of [Runs.Item]. *)
Record EvalResult : Type := mkResult {
  r_extracted : gmap string jsval;
  r_comparison : option (gmap string FieldComparison);
  r_flags : option (list string)
}.

(** [Object.values(o)] *)
Definition values {V} (o : gmap string V) : list V := (map_to_list o).*2.

(** [value !== null && value !== undefined && value !== 'null'] *)
Definition is_extracted (value : jsval) : bool :=
  negb (strict_eq value Null) && negb (strict_eq value Undefined)
  && negb (strict_eq value (Str "null")).

(** [c && c.match === true] *)
Definition match_is_true (c : FieldComparison) : bool :=
  match fc_match c with Some true => true | _ => false end.

(** The numeric part of the object [calculateFieldMetrics] returns; the
    three percentages formatted with [toFixed] are left out. *)
Record FieldMetrics : Type := mkFM {
  fm_total : nat;
  fm_extracted : nat;
  fm_correct : nat;
  fm_precisionRaw : jsnum;
  fm_recallRaw : jsnum;
  fm_f1Raw : jsnum
}.

Definition zero : jsnum := Fin 0.

(** [calculateFieldMetrics(results, field)] *)
Definition calculateFieldMetrics (results : list EvalResult) (field : string)
  : FieldMetrics :=
  let total := length results in
  let extracted :=
    length (List.filter
              (fun r => is_extracted (get Undefined (r_extracted r) field))
              results) in
  let correct :=
    length (List.filter
              (fun r =>
                 match r_comparison r with
                 | Some cmp =>
                     match cmp !! field with
                     | Some c => match_is_true c
                     | None => false
                     end
                 | None => false
                 end) results) in
  let precision :=
    if js_gt (of_nat extracted) zero
    then js_div (of_nat correct) (of_nat extracted) else zero in
  let recall :=
    if js_gt (of_nat total) zero
    then js_div (of_nat correct) (of_nat total) else zero in
  let f1 :=
    if js_gt (js_add precision recall) zero
    then js_div (js_mul (of_Z 2) (js_mul precision recall))
                (js_add precision recall)
    else zero in
  mkFM total extracted correct precision recall f1.

(** The weight table of [calculateAllMetrics]. *)
Definition weights : gmap string jsnum :=
  <["airlineCode" := Fin 0.5]>
  (<["departureAirportCode" := Fin 0.5]>
  (<["arrivalAirportCode" := Fin 0.5]>
  (<["flightDate" := Fin 0.5]>
  (<["aircraftName" := Fin 1.5]>
  (<["flightTime" := Fin 1.5]> ∅))))).

(** [weights[field] || 1.0], for a field name that is not an
    [inherited_key] (for those the read finds a function, not a
    number). *)
Definition weight_of (field : string) : jsnum :=
  match weights !! field with
  | Some w => if num_truthy w then w else Fin 1.0
  | None => Fin 1.0
  end.

(** The object [calculateAllMetrics] returns: the metrics of each field
    and, under [overall], the raw weighted F1 (its formatted percentage is
    left out). *)
Record AllMetrics : Type := mkAll {
  per_field : gmap string FieldMetrics;
  weightedF1Raw : jsnum
}.

(** The first loop of [calculateAllMetrics]. *)
Definition field_metrics_table (results : list EvalResult) (fields : list string)
  : gmap string FieldMetrics :=
  fold_left (fun metrics field =>
               <[field := calculateFieldMetrics results field]> metrics)
            fields ∅.

(** The second loop: the running [weightedF1Sum] and [totalWeight].  The
    entry [metrics[field]] exists for every field of the list, the first
    loop stored it; the fallback NaN stands for the absent case. *)
Definition weighted_sums (metrics : gmap string FieldMetrics)
    (fields : list string) : jsnum * jsnum :=
  fold_left (fun '(weightedF1Sum, totalWeight) field =>
               let weight := weight_of field in
               let f1 := match metrics !! field with
                         | Some m => fm_f1Raw m
                         | None => NaN
                         end in
               (js_add weightedF1Sum (js_mul f1 weight),
                js_add totalWeight weight))
            fields (zero, zero).

(** [calculateAllMetrics(results, fields)] *)
Definition calculateAllMetrics (results : list EvalResult) (fields : list string)
  : AllMetrics :=
  let metrics := field_metrics_table results fields in
  let '(weightedF1Sum, totalWeight) := weighted_sums metrics fields in
  let overallF1 :=
    if js_gt totalWeight zero then js_div weightedF1Sum totalWeight else zero in
  mkAll metrics overallF1.

Record SummaryStats : Type := mkStats {
  totalFlights : nat;
  perfectMatches : nat;
  withData : nat;
  flaggedCount : nat;
  avgGradeRaw : jsnum
}.

(** The predicate of the [perfectMatches] filter. *)
Definition is_perfect (r : EvalResult) : bool :=
  match r_comparison r with
  | None => false
  | Some cmp => forallb match_is_true (values cmp)
  end.

(** The body of the grade loop for one comparison: a grade that is a
    number is added and counted. *)
Definition add_grade (acc : jsnum * nat) (c : FieldComparison) : jsnum * nat :=
  let '(totalGrade, gradeCount) := acc in
  match fc_grade c with
  | Some g => (js_add totalGrade g, S gradeCount)
  | None => acc
  end.

(** The grade loop over all results: [totalGrade] and [gradeCount]. *)
Definition grade_totals (results : list EvalResult) : jsnum * nat :=
  fold_left (fun acc r =>
               match r_comparison r with
               | Some cmp => fold_left add_grade (values cmp) acc
               | None => acc
               end)
            results (zero, O).

(** [getSummaryStats(results)] *)
Definition getSummaryStats (results : list EvalResult) : SummaryStats :=
  let totalFlights := length results in
  let perfectMatches := length (List.filter is_perfect results) in
  let withData :=
    length (List.filter
              (fun r => existsb is_extracted (values (r_extracted r)))
              results) in
  let flaggedCount :=
    length (List.filter
              (fun r => match r_flags r with
                        | Some fl => (0 <? length fl)%nat
                        | None => false
                        end) results) in
  let '(totalGrade, gradeCount) := grade_totals results in
  let avgGrade :=
    if js_gt (of_nat gradeCount) zero
    then js_div totalGrade (of_nat gradeCount) else zero in
  mkStats totalFlights perfectMatches withData flaggedCount avgGrade.

(** The six fields the report and the console summary pass to
    [calculateAllMetrics]. *)
Definition scored_fields : list string :=
  ["airlineCode"; "departureAirportCode"; "arrivalAirportCode";
   "flightDate"; "aircraftName"; "flightTime"].

(** A result as [runEvaluation] assembles it from an extracted record and
    the ground truth it is compared with. *)
Definition evaluate (extracted groundTruth : gmap string jsval)
    (flags : list string) : EvalResult :=
  mkResult extracted (Some (compareAllFields extracted groundTruth)) (Some flags).

(** The overall weighted F1 of a batch, as reported. *)
Definition overallScore (results : list EvalResult) : jsnum :=
  weightedF1Raw (calculateAllMetrics results scored_fields).

End Metrics.

Import Metrics.

(* ===================================================================== *)
(** ** Vocabulary of the specification and the worked scenarios *)
(* ===================================================================== *)

Module SpecTerms.

Local Open Scope string_scope.

(** The verdicts the specification names. *)
Definition excluded : FieldComparison := mkFC None None.
Definition full_credit : FieldComparison := mkFC (Some true) (Some grade_1_0).
Definition family_credit : FieldComparison := mkFC (Some true) (Some grade_0_8).
Definition partial_credit : FieldComparison := mkFC (Some true) (Some grade_0_7).
Definition wrong : FieldComparison := mkFC (Some false) (Some grade_0_0).

(** The four fields compared by exact equality. *)
Definition exact_match_fields : list string :=
  ["airlineCode"; "departureAirportCode"; "arrivalAirportCode"; "flightDate"].

(** Two names belong to the same family of the table. *)
Definition same_family (e g : string) : Prop :=
  exists family members,
    In (family, members) AIRCRAFT_FAMILIES /\ In e members /\ In g members.

(** The same for two field values: both are strings of one family. *)
Definition same_family_values (e g : jsval) : Prop :=
  exists s t, e = Str s /\ g = Str t /\ same_family s t.

(** A duration written [HH:MM]: two decimal digits, a colon, two decimal
    digits. *)
Definition is_digit (c : ascii) : bool :=
  let n := nat_of_ascii c in Nat.leb 48 n && Nat.leb n 57.

Definition digit_value (c : ascii) : Z := Z.of_nat (nat_of_ascii c) - 48.

Definition is_hhmm (s : string) : bool :=
  match s with
  | String a (String b (String c (String d (String e EmptyString)))) =>
      is_digit a && is_digit b && Ascii.eqb c ":"%char
      && is_digit d && is_digit e
  | _ => false
  end.

(** The minutes an [HH:MM] string denotes. *)
Definition hhmm_minutes (s : string) : Z :=
  match s with
  | String a (String b (String _ (String d (String e EmptyString)))) =>
      60 * (10 * digit_value a + digit_value b)
      + (10 * digit_value d + digit_value e)
  | _ => 0
  end.

(** The verdict for a difference of [d] minutes. *)
Definition duration_tier (d : Z) : FieldComparison :=
  if (d <=? 15)%Z then full_credit
  else if (d <=? 30)%Z then partial_credit
  else wrong.

(** A value from which [timeToMinutes] obtains no finite number of
    minutes: it is missing, has no colon, or one of its first two pieces
    is not numeric text. *)
Definition no_minutes (v : jsval) : Prop :=
  match timeToMinutes v with
  | Some (Fin _) => False
  | _ => True
  end.

(** The f1 of a field as a rational (0 stands for a value that is not
    finite; there is none, see [calculateFieldMetrics_formulas]). *)
Definition f1_of (results : list EvalResult) (field : string) : Q :=
  match fm_f1Raw (calculateFieldMetrics results field) with
  | Fin q => q
  | _ => 0%Q
  end.

(** A case is perfect in the sense of the specification when every
    comparison that is not excluded has [match === true]. *)
Definition perfect_on_scored (r : EvalResult) : bool :=
  match r_comparison r with
  | None => false
  | Some cmp =>
      forallb (fun c => match fc_match c with
                        | None => true
                        | Some b => b
                        end) (values cmp)
  end.


(** The end-to-end scenario of the specification. *)
Definition scenario_groundTruth : gmap string jsval :=
  list_to_map
    [("airlineCode", Str "WN"); ("departureAirportCode", Str "LAS");
     ("arrivalAirportCode", Str "ABQ"); ("flightDate", Str "16-12-2025");
     ("aircraftName", Str "Boeing 737NG"); ("flightTime", Str "01:30")].

Definition scenario_extracted : gmap string jsval :=
  list_to_map
    [("airlineCode", Str "WN"); ("departureAirportCode", Str "LAS");
     ("arrivalAirportCode", Str "ABQ"); ("flightDate", Str "16-12-2025");
     ("aircraftName", Str "Boeing 737MAX"); ("flightTime", Str "01:50")].

(** A record with all seven fields, and the same record whose flight
    number was not found. *)
Definition complete_record : gmap string jsval :=
  <["flightNumber" := Str "548"]> scenario_groundTruth.

Definition record_without_number : gmap string jsval :=
  <["flightNumber" := Null]> scenario_groundTruth.

(** The grades of the scored fields of a comparison, in the order of
    [scored_fields]. *)
Definition scored_grades (cmp : gmap string FieldComparison)
  : list (option jsnum) :=
  map (fun f => match cmp !! f with
                | Some c => fc_grade c
                | None => None
                end) scored_fields.

(** The grades of the comparisons of a batch that are not excluded. *)
Definition grades_of (cs : list FieldComparison) : list jsnum :=
  flat_map (fun c => match fc_match c, fc_grade c with
                     | Some _, Some g => [g]
                     | _, _ => []
                     end) cs.

Definition non_excluded_grades (results : list EvalResult) : list jsnum :=
  flat_map (fun r => match r_comparison r with
                     | Some cmp => grades_of (values cmp)
                     | None => []
                     end) results.

Definition grade_value (g : jsnum) : Q :=
  match g with Fin q => q | _ => 0%Q end.

Definition Qsum (l : list Q) : Q := fold_right Qplus 0%Q l.

(** A comparison whose grade is defined exactly when it is not excluded,
    and is then a finite number. *)
Definition well_graded (c : FieldComparison) : Prop :=
  (fc_match c = None /\ fc_grade c = None)
  \/ (exists b q, fc_match c = Some b /\ fc_grade c = Some (Fin q)).

(** Their verdicts, in the same order. *)
Definition scored_matches (cmp : gmap string FieldComparison)
  : list (option bool) :=
  map (fun f => match cmp !! f with
                | Some c => fc_match c
                | None => None
                end) scored_fields.

(** One-case batches: the scenario; a case whose seven extracted fields
    equal the ground truth; the same case with the flight number not
    found. *)
Definition scenario_batch : list EvalResult :=
  [evaluate scenario_extracted scenario_groundTruth []].

Definition perfect_batch : list EvalResult :=
  [evaluate complete_record complete_record []].

Definition numberless_batch : list EvalResult :=
  [evaluate record_without_number complete_record []].

End SpecTerms.

Import SpecTerms.

(* ===================================================================== *)
(** ** Further string and number primitives *)
(* ===================================================================== *)

Module JSText.

Local Open Scope string_scope.

(** [s.split(sep)] for a separator of one character. *)
Fixpoint split_char (sep : ascii) (s : string) : list string :=
  match s with
  | EmptyString => [EmptyString]
  | String c r =>
      if Ascii.eqb c sep then EmptyString :: split_char sep r
      else match split_char sep r with
           | h :: t => String c h :: t
           | [] => [String c EmptyString]
           end
  end.

(** [s.padStart(2, '0')] *)
Definition padStart2 (s : string) : string :=
  match String.length s with
  | O => "00"
  | S O => String "0"%char s
  | _ => s
  end.

(** [n.toString()] of a non-negative integer (below 1e21, where
    JavaScript switches to the exponent form). *)
Definition toString (n : nat) : string :=
  NilEmpty.string_of_uint (Nat.to_uint n).

(** A piece of a destructured array inside a template literal: a missing
    piece prints as [undefined]. *)
Definition template_piece (piece : option string) : string :=
  match piece with
  | Some s => s
  | None => "undefined"
  end.

(** [a === b] on numbers. *)
Definition js_num_eq (a b : jsnum) : bool :=
  match a, b with
  | Fin x, Fin y => Qeq_bool x y
  | PosInf, PosInf | NegInf, NegInf => true
  | _, _ => false
  end.

(** The double quote character. *)
Definition dquote : ascii := ascii_of_nat 34.

End JSText.

Import JSText.

(* ===================================================================== *)
(** ** lib/aircraft-utils.js, continued *)
(* ===================================================================== *)

Module AircraftFamilies.

Local Open Scope string_scope.

(** [getAircraftFamily(aircraft)]: [null] for a falsy value, the name of
    the first family that lists the value, the value itself when no family
    does. *)
Definition getAircraftFamily (aircraft : jsval) : jsval :=
  if negb (truthy aircraft) then Null
  else
    match List.find (fun '(family, members) => includes members aircraft)
                    AIRCRAFT_FAMILIES with
    | Some (family, _) => Str family
    | None => aircraft
    end.

(** [ac.split(' ')[0]] *)
Definition getManufacturer (ac : string) : string :=
  hd EmptyString (split_char " "%char ac).

(** [getAircraftSimilarity(aircraft1, aircraft2)] *)
Definition getAircraftSimilarity (aircraft1 aircraft2 : jsval) : jsnum :=
  if negb (truthy aircraft1) || negb (truthy aircraft2) then Fin 0.0
  else if strict_eq aircraft1 aircraft2 then Fin 1.0
  else if isSameFamily aircraft1 aircraft2 then Fin 0.8
  else
    match aircraft1, aircraft2 with
    | Str s1, Str s2 =>
        if String.eqb (getManufacturer s1) (getManufacturer s2)
        then Fin 0.3 else Fin 0.0
    | _, _ => Fin 0.0
    end.

End AircraftFamilies.

Import AircraftFamilies.

(* ===================================================================== *)
(** ** eval-final.js: review flags and the assembly of a case *)
(* ===================================================================== *)

Module Review.

Local Open Scope string_scope.

(** [v === null || v === 'null' || v === undefined] *)
Definition is_null_like (v : jsval) : bool :=
  strict_eq v Null || strict_eq v (Str "null") || strict_eq v Undefined.

(** [flagForReview(result)], on the three properties of the result it
    reads.  [groundTruth] is the test case, whose duration is under the
    key [duration]. *)
Definition flagForReview (extracted groundTruth : gmap string jsval)
    (comparison : gmap string FieldComparison) : list string :=
  let aircraftName := get Undefined extracted "aircraftName" in
  let flightTime := get Undefined extracted "flightTime" in
  let duration := get Undefined groundTruth "duration" in
  let flags1 :=
    if (negb (truthy aircraftName) || strict_eq aircraftName (Str "null"))
       && truthy flightTime
    then ["aircraft_missing"] else [] in
  let flags2 :=
    match comparison !! "aircraftName" with
    | Some c =>
        if match fc_grade c with
           | Some g => js_num_eq g (Fin 0.0)
           | None => false
           end && truthy aircraftName
        then (flags1 ++ ["aircraft_mismatch"])%list else flags1
    | None => flags1
    end in
  let flags3 :=
    if truthy flightTime && truthy duration then
      let durationDiff := getTimeDiffMinutes flightTime duration in
      if js_gt durationDiff (of_Z 30) then (flags2 ++ ["duration_error"])%list
      else flags2
    else flags2 in
  let nullCount := length (List.filter is_null_like (values extracted)) in
  if (3 <=? nullCount)%nat then (flags3 ++ ["low_quality"])%list else flags3.

(** The ICAO table of [eval-final.js]. *)
Definition AIRCRAFT_MAPPING : gmap string string :=
  list_to_map
    [ ("B738", "Boeing 737NG"); ("B739", "Boeing 737NG");
      ("B73J", "Boeing 737NG"); ("B737", "Boeing 737NG");
      ("B38M", "Boeing 737MAX"); ("B712", "Boeing 717");
      ("B753", "Boeing 757"); ("B77W", "Boeing 777");
      ("B77L", "Boeing 777"); ("B772", "Boeing 777");
      ("B773", "Boeing 777"); ("B78X", "Boeing 787");
      ("B788", "Boeing 787"); ("B789", "Boeing 787");
      ("B744", "Boeing 747"); ("B748", "Boeing 747");
      ("A320", "Airbus A320"); ("A20N", "Airbus A320");
      ("A321", "Airbus A321"); ("A21N", "Airbus A321");
      ("A319", "Airbus A319"); ("A19N", "Airbus A319");
      ("A333", "Airbus A330"); ("A332", "Airbus A330");
      ("A339", "Airbus A330"); ("A359", "Airbus A350");
      ("A35K", "Airbus A350"); ("A388", "Airbus A380");
      ("E75L", "Embraer E175-E2"); ("E75S", "Embraer E175-E2");
      ("E170", "Embraer E170"); ("E190", "Embraer E190");
      ("E290", "Embraer E190"); ("E195", "Embraer E195-E2");
      ("E295", "Embraer E195-E2"); ("CRJ9", "Bombardier CRJ");
      ("CRJ7", "Bombardier CRJ"); ("CRJ2", "Bombardier CRJ");
      ("DH8D", "DHC Dash 8"); ("AT76", "ATR 42/72");
      ("AT72", "ATR 42/72") ].

(** [mapAircraftCode(icaoCode)]: [AIRCRAFT_MAPPING[icaoCode] || icaoCode].
    The key of a value that is not a string is its text.  Only the
    entries of the table itself are modelled, not the properties every
    object inherits ([constructor], [toString], ...), none of which is an
    ICAO designator. *)
Definition mapAircraftCode (icaoCode : jsval) : jsval :=
  let key := match icaoCode with
             | Undefined => "undefined"
             | Null => "null"
             | Str s => s
             end in
  match AIRCRAFT_MAPPING !! key with
  | Some name => if truthy (Str name) then Str name else icaoCode
  | None => icaoCode
  end.

(** The object [groundTruthData] that [runEvaluation] builds from a test
    case, on both of its paths. *)
Definition groundTruthData (testCase : gmap string jsval) : gmap string jsval :=
  <["duration" := get Undefined testCase "duration"]>
  (<["aircraftName" := mapAircraftCode (get Undefined testCase "aircraft")]>
  (<["flightDate" := get Undefined testCase "date"]>
  (<["arrivalAirportCode" := get Undefined testCase "destinationCode"]>
  (<["departureAirportCode" := get Undefined testCase "originCode"]>
  (<["airlineCode" := get Undefined testCase "airlineCode"]>
  (<["flightNumber" := get Undefined testCase "flightNumber"]> ∅)))))).

(** The result [runEvaluation] pushes for a test case and the record
    extracted for it (on the error path, the record of nulls). *)
Definition runCase (testCase extracted : gmap string jsval) : EvalResult :=
  let comparison := compareAllFields extracted (groundTruthData testCase) in
  mkResult extracted (Some comparison)
           (Some (flagForReview extracted testCase comparison)).

(** The four flags, in the order [flagForReview] pushes them. *)
Definition all_flags : list string :=
  ["aircraft_missing"; "aircraft_mismatch"; "duration_error"; "low_quality"].

End Review.

Import Review.

(* ===================================================================== *)
(** ** eval-final.js, second evaluator: its copy of the comparator *)
(* ===================================================================== *)

Module ComparatorV2.

Local Open Scope string_scope.

(** [timeToMinutes] of the second evaluator has the body of the first. *)
Definition timeToMinutes := Comparator.timeToMinutes.

(** [compareField(field, extracted, groundTruth)] of the second evaluator:
    the duration case tests the two [null]s itself. *)
Definition compareField (field : string) (extracted groundTruth : jsval)
  : FieldComparison :=
  if negb (truthy extracted) || strict_eq extracted (Str "null")
     || strict_eq extracted Null
  then mkFC (Some false) (Some (Fin 0.0))
  else if String.eqb field "flightNumber" then mkFC None None
  else if String.eqb field "airlineCode"
          || String.eqb field "departureAirportCode"
          || String.eqb field "arrivalAirportCode"
          || String.eqb field "flightDate" then
    mkFC (Some (strict_eq extracted groundTruth))
         (Some (if strict_eq extracted groundTruth then Fin 1.0 else Fin 0.0))
  else if String.eqb field "aircraftName" then
    if strict_eq extracted groundTruth then mkFC (Some true) (Some (Fin 1.0))
    else if isSameFamily extracted groundTruth then mkFC (Some true) (Some (Fin 0.8))
    else mkFC (Some false) (Some (Fin 0.0))
  else if String.eqb field "flightTime" then
    match timeToMinutes extracted, timeToMinutes groundTruth with
    | Some mins1, Some mins2 =>
        let diff := js_abs (js_sub mins1 mins2) in
        if js_le diff (of_Z 15) then mkFC (Some true) (Some (Fin 1.0))
        else if js_le diff (of_Z 30) then mkFC (Some true) (Some (Fin 0.7))
        else mkFC (Some false) (Some (Fin 0.0))
    | _, _ => mkFC (Some false) (Some (Fin 0.0))
    end
  else mkFC (Some false) (Some (Fin 0.0)).

End ComparatorV2.

(* ===================================================================== *)
(** ** The batch evaluator: its formatting helpers and duration test *)
(* ===================================================================== *)

Module BatchEval.

Local Open Scope string_scope.

(** [formatDurationToTime(minutes)] for a whole, non-negative number of
    minutes, which is what the dataset holds.  The quotient and the
    remainder are those of the integers: they are what [Math.floor(minutes
    / 60)] and [minutes % 60] give in binary64 for the [safe_minutes],
    the whole numbers below 2^53, and the properties below are stated for
    those. *)
Definition formatDurationToTime (minutes : nat) : string :=
  let hours := Nat.div minutes 60 in
  let mins := Nat.modulo minutes 60 in
  padStart2 (toString hours) ++ ":" ++ padStart2 (toString mins).

(** [timeToMinutes(timeStr)] of the batch evaluator: 0 for a falsy value
    or one that is not a string. *)
Definition timeToMinutes (timeStr : jsval) : jsnum :=
  if negb (truthy timeStr) then of_Z 0
  else
    match timeStr with
    | Str s =>
        let parts := map Number (split_colon s) in
        let hours := nth 0 parts NaN in
        let mins := nth 1 parts NaN in
        js_add (js_mul hours (of_Z 60)) mins
    | _ => of_Z 0
    end.

(** [compareDuration(extracted, expected, tolerance)] *)
Definition compareDuration (extracted expected : jsval) (tolerance : jsnum)
  : bool :=
  if negb (truthy extracted) || negb (truthy expected) then false
  else
    let extractedMins := timeToMinutes extracted in
    let expectedMins := timeToMinutes expected in
    let diff := js_abs (js_sub extractedMins expectedMins) in
    js_le diff tolerance.

(** [formatDuration(duration)] *)
Definition formatDuration (duration : string) : string :=
  let parts := split_colon duration in
  let hours := padStart2 (hd EmptyString parts) in
  let minutes := nth_error parts 1 in
  hours ++ ":" ++ template_piece minutes.

(** [formatDateFromEnriched(timestamp)] *)
Definition formatDateFromEnriched (timestamp : string) : string :=
  let date := hd EmptyString (split_char " "%char timestamp) in
  let pieces := split_char "-"%char date in
  let year := nth_error pieces 0 in
  let month := nth_error pieces 1 in
  let day := nth_error pieces 2 in
  template_piece day ++ "-" ++ template_piece month ++ "-"
  ++ template_piece year.

End BatchEval.

(* ===================================================================== *)
(** ** parse-label-studio.js: one line of CSV *)
(* ===================================================================== *)

Module LabelStudio.

Local Open Scope string_scope.

(** The loop of [parseCSVLine] from position [i] on: [line] is what is
    left of the line, [current] the field being read, [inQuotes] the
    quoting state and [result] the fields read so far.  The character
    after a quote is looked at to tell a doubled quote inside a quoted
    field, which is then skipped. *)
Fixpoint parse_loop (line : list ascii) (current : string) (inQuotes : bool)
    (result : list string) : list string :=
  match line with
  | [] => (result ++ [current])%list
  | char :: rest =>
      if Ascii.eqb char dquote then
        match rest with
        | next :: rest' =>
            if inQuotes && Ascii.eqb next dquote
            then parse_loop rest' (current ++ String dquote EmptyString)
                            inQuotes result
            else parse_loop rest current (negb inQuotes) result
        | [] => parse_loop rest current (negb inQuotes) result
        end
      else if Ascii.eqb char ","%char && negb inQuotes
      then parse_loop rest EmptyString inQuotes (result ++ [current])%list
      else parse_loop rest (current ++ String char EmptyString) inQuotes result
  end.

(** [parseCSVLine(line)] *)
Definition parseCSVLine (line : string) : list string :=
  parse_loop (list_ascii_of_string line) EmptyString false [].

(** Writing a field between quotes, its own quotes doubled, and a line
    of such fields: the form the parser is written for. *)
Fixpoint double_quotes (field : string) : string :=
  match field with
  | EmptyString => EmptyString
  | String c r =>
      if Ascii.eqb c dquote then String dquote (String dquote (double_quotes r))
      else String c (double_quotes r)
  end.

Definition quote_field (field : string) : string :=
  String dquote (double_quotes field ++ String dquote EmptyString).

Fixpoint join_comma (fields : list string) : string :=
  match fields with
  | [] => EmptyString
  | [f] => f
  | f :: rest => f ++ "," ++ join_comma rest
  end.

End LabelStudio.

Import LabelStudio.

(* ===================================================================== *)
(** ** Vocabulary for the properties of the further code *)
(* ===================================================================== *)

Module MoreTerms.

Local Open Scope string_scope.

(** A batch as [runEvaluation] assembles it from test cases and the
    records extracted for them. *)
Definition runBatch (cases : list (gmap string jsval * gmap string jsval))
  : list EvalResult :=
  map (fun '(testCase, extracted) => runCase testCase extracted) cases.

(** A batch of results built with [evaluate]. *)
Definition evaluated
    (cases : list (gmap string jsval * gmap string jsval * list string))
  : list EvalResult :=
  map (fun '(e, g, fl) => evaluate e g fl) cases.

(** The raw precision and recall of a field as rationals. *)
Definition precision_of (results : list EvalResult) (field : string) : Q :=
  grade_value (fm_precisionRaw (calculateFieldMetrics results field)).

Definition recall_of (results : list EvalResult) (field : string) : Q :=
  grade_value (fm_recallRaw (calculateFieldMetrics results field)).

(** The conditions under which [flagForReview] pushes each of its four
    flags. *)
Definition aircraft_missing_raised (extracted : gmap string jsval) : bool :=
  (negb (truthy (get Undefined extracted "aircraftName"))
   || strict_eq (get Undefined extracted "aircraftName") (Str "null"))
  && truthy (get Undefined extracted "flightTime").

Definition aircraft_mismatch_raised (extracted : gmap string jsval)
    (comparison : gmap string FieldComparison) : bool :=
  match comparison !! "aircraftName" with
  | Some c =>
      match fc_grade c with
      | Some g => js_num_eq g (Fin 0.0)
      | None => false
      end && truthy (get Undefined extracted "aircraftName")
  | None => false
  end.

Definition duration_error_raised (extracted groundTruth : gmap string jsval)
  : bool :=
  truthy (get Undefined extracted "flightTime")
  && truthy (get Undefined groundTruth "duration")
  && js_gt (getTimeDiffMinutes (get Undefined extracted "flightTime")
                               (get Undefined groundTruth "duration"))
           (of_Z 30).

Definition low_quality_raised (extracted : gmap string jsval) : bool :=
  (3 <=? length (List.filter is_null_like (values extracted)))%nat.

(** A string of decimal digits and the number it writes. *)
Definition digits_only (s : string) : Prop :=
  Forall (fun c => is_digit c = true) (list_ascii_of_string s).

Definition decimal_value (s : string) : Z :=
  digits_value 10 (map digit_value (list_ascii_of_string s)).

(** What is left of a line does not start with a quote. *)
Definition not_a_quote_next (rest : list ascii) : Prop :=
  match rest with
  | c :: _ => Ascii.eqb c dquote = false
  | [] => True
  end.

(** A string without a given character. *)
Fixpoint lacks (sep : ascii) (s : string) : bool :=
  match s with
  | EmptyString => true
  | String c r => negb (Ascii.eqb c sep) && lacks sep r
  end.

End MoreTerms.

Import MoreTerms.

(* ===================================================================== *)
(** ** lib/metrics.js on a batch whose elements may lack [extracted] *)
(* ===================================================================== *)

Module Runs.

Local Open Scope string_scope.

(** How a call ends: it returns a value, or it throws; the one exception
    met here is the TypeError of reading a property of [undefined]. *)
Inductive completion (A : Type) : Type :=
| Returned (a : A)
| Thrown.

Arguments Returned {A} a.
Arguments Thrown {A}.

(** An element of the array handed to the scorer: an object any of whose
    properties [extracted], [comparison] and [flags] may be missing.  An
    [EvalResult] is such an element with [extracted] in place. *)
Record Item : Type := mkItem {
  i_extracted : option (gmap string jsval);
  i_comparison : option (gmap string FieldComparison);
  i_flags : option (list string)
}.

Definition item_of (r : EvalResult) : Item :=
  mkItem (Some (r_extracted r)) (r_comparison r) (r_flags r).

(** The first filter of [calculateFieldMetrics],
    [results.filter(r => { const value = r.extracted[field]; ... })]:
    the callback reads [r.extracted[field]] unguarded, and throws on an
    element without [extracted]. *)
Fixpoint filter_extracted (field : string) (results : list Item)
  : completion (list Item) :=
  match results with
  | [] => Returned []
  | r :: rest =>
      match i_extracted r with
      | None => Thrown
      | Some ext =>
          match filter_extracted field rest with
          | Returned kept =>
              Returned (if is_extracted (get Undefined ext field)
                        then r :: kept else kept)
          | Thrown => Thrown
          end
      end
  end.

(** [calculateFieldMetrics(results, field)] *)
Definition calculateFieldMetrics (results : list Item) (field : string)
  : completion FieldMetrics :=
  let total := length results in
  match filter_extracted field results with
  | Thrown => Thrown
  | Returned kept =>
      let extracted := length kept in
      let correct :=
        length (List.filter
                  (fun r =>
                     match i_comparison r with
                     | Some cmp =>
                         match cmp !! field with
                         | Some c => match_is_true c
                         | None => false
                         end
                     | None => false
                     end) results) in
      let precision :=
        if js_gt (of_nat extracted) zero
        then js_div (of_nat correct) (of_nat extracted) else zero in
      let recall :=
        if js_gt (of_nat total) zero
        then js_div (of_nat correct) (of_nat total) else zero in
      let f1 :=
        if js_gt (js_add precision recall) zero
        then js_div (js_mul (of_Z 2) (js_mul precision recall))
                    (js_add precision recall)
        else zero in
      Returned (mkFM total extracted correct precision recall f1)
  end.

End Runs.

(* ===================================================================== *)
(** ** Vocabulary for the metrics of a field and for duration texts *)
(* ===================================================================== *)

Module ScorerTerms.

Local Open Scope string_scope.

(** Contract A of the specification in its words.  The extracted value of
    a field is present when it is neither absent, nor [null], nor the
    sentinel ['null']; the empty string is present. *)
Definition field_present (field : string) (case : Runs.Item) : bool :=
  match Runs.i_extracted case with
  | Some record =>
      match record !! field with
      | Some (Str s) => negb (String.eqb s "null")
      | _ => false
      end
  | None => false
  end.

(** The comparison of the field has [match === true]. *)
Definition field_correct (field : string) (case : Runs.Item) : bool :=
  match Runs.i_comparison case with
  | Some comparisons =>
      match comparisons !! field with
      | Some c =>
          match fc_match c with
          | Some true => true
          | _ => false
          end
      | None => false
      end
  | None => false
  end.

(** The number of cases of a batch with a property. *)
Fixpoint count_cases (p : Runs.Item -> bool) (cases : list Runs.Item) : nat :=
  match cases with
  | [] => O
  | case :: rest => if p case then S (count_cases p rest) else count_cases p rest
  end.

(** Every case of the batch carries its extracted record, as an
    EvaluationCase does. *)
Definition carry_extracted (cases : list Runs.Item) : Prop :=
  Forall (fun case => Runs.i_extracted case <> None) cases.

(** A guarded ratio of two counts: 0 when the divisor is 0. *)
Definition ratio_or_zero (c n : nat) : jsnum :=
  if (0 <? n)%nat then js_div (of_nat c) (of_nat n) else Fin 0.

(** The guarded harmonic mean of two numbers: 0 unless their sum is
    positive. *)
Definition harmonic_or_zero (p r : jsnum) : jsnum :=
  if js_gt (js_add p r) (Fin 0)
  then js_div (js_mul (of_Z 2) (js_mul p r)) (js_add p r)
  else Fin 0.

(** An integer small enough for the sums and differences of minutes below
    to stay among the integers binary64 holds exactly. *)
Definition small (z : Z) : Prop := (Z.abs z <= 10 ^ 12)%Z.

(** The text [s] is cut at its colons into two pieces at least, and
    [Number] reads the first two as the whole numbers [h] and [m]. *)
Definition reads_as (s : string) (h m : Z) : Prop :=
  exists hours mins rest,
    split_colon s = hours :: mins :: rest
    /\ Number hours = of_Z h /\ Number mins = of_Z m
    /\ small h /\ small m.

(** The text [s] has no colon, or one of its first two pieces is not
    numeric text. *)
Definition unreadable (s : string) : Prop :=
  (exists piece, split_colon s = [piece])
  \/ (exists hours mins rest,
        split_colon s = hours :: mins :: rest
        /\ (Number hours = NaN \/ Number mins = NaN)).

(** A whole number of minutes that binary64 holds exactly together with
    its quotient by 60: a safe integer. *)
Definition safe_minutes (n : nat) : Prop := (Z.of_nat n < 2 ^ 53)%Z.

End ScorerTerms.

Import ScorerTerms.

(* ===================================================================== *)
(** ** Basic facts about values *)
(* ===================================================================== *)

Section Values.

Lemma strict_eq_true (a b : jsval) : strict_eq a b = true <-> a = b.
Proof.
  destruct a, b; simpl; split; intros H; try discriminate; try reflexivity.
  - apply String.eqb_eq in H. now subst.
  - injection H as ->. apply String.eqb_refl.
Qed.

Lemma strict_eq_refl (a : jsval) : strict_eq a a = true.
Proof. now apply strict_eq_true. Qed.

Lemma strict_eq_false (a b : jsval) : strict_eq a b = false <-> a <> b.
Proof.
  split.
  - intros H E. apply strict_eq_true in E. congruence.
  - intros H. destruct (strict_eq a b) eqn:E; [|reflexivity].
    apply strict_eq_true in E. contradiction.
Qed.

(** The guard lets through exactly the strings other than the empty one
    and ["null"]. *)
Lemma is_missing_false (v : jsval) :
  is_missing v = false <->
  exists s, v = Str s /\ s <> EmptyString /\ s <> "null"%string.
Proof.
  unfold is_missing. split.
  - destruct v as [| |s]; simpl; try discriminate.
    intros H.
    destruct (String.eqb_spec s "") as [E|Hne]; [discriminate|].
    destruct (String.eqb_spec s "null") as [E|Hnn]; [discriminate|].
    exists s. now repeat split.
  - intros (s & -> & Hne & Hnn). simpl.
    apply String.eqb_neq in Hne, Hnn. now rewrite Hne, Hnn.
Qed.

Lemma is_missing_truthy (v : jsval) : is_missing v = false -> truthy v = true.
Proof.
  unfold is_missing. destruct (truthy v); [reflexivity|discriminate].
Qed.

End Values.

(* ===================================================================== *)
(** ** The field comparator *)
(* ===================================================================== *)

Section ComparatorFacts.

Local Open Scope string_scope.

(** What [compareField] does once the guard is passed, field by field. *)
Lemma compareField_missing field e g :
  is_missing e = true -> compareField field e g = wrong.
Proof. intros H. unfold compareField. now rewrite H. Qed.

Lemma compareField_flightNumber_present e g :
  is_missing e = false -> compareField "flightNumber" e g = excluded.
Proof. intros H. unfold compareField. now rewrite H. Qed.

Lemma compareField_exact field e g :
  In field exact_match_fields -> is_missing e = false ->
  compareField field e g
  = mkFC (Some (strict_eq e g))
         (Some (if strict_eq e g then grade_1_0 else grade_0_0)).
Proof.
  intros Hf He. unfold compareField. rewrite He.
  simpl in Hf. destruct Hf as [<-|[<-|[<-|[<-|[]]]]]; reflexivity.
Qed.

Lemma compareField_aircraft e g :
  is_missing e = false ->
  compareField "aircraftName" e g
  = if strict_eq e g then full_credit
    else if isSameFamily e g then family_credit else wrong.
Proof. intros He. unfold compareField. now rewrite He. Qed.

Lemma compareField_flightTime e g :
  is_missing e = false ->
  compareField "flightTime" e g
  = if js_le (getTimeDiffMinutes e g) (of_Z 15) then full_credit
    else if js_le (getTimeDiffMinutes e g) (of_Z 30) then partial_credit
    else wrong.
Proof. intros He. unfold compareField. now rewrite He. Qed.

(** No member of the family table is the empty string. *)
Lemma family_members_nonempty family members t :
  In (family, members) AIRCRAFT_FAMILIES -> In t members -> t <> "".
Proof.
  assert (Hall : forallb (fun fm : string * list string =>
                            forallb (fun m => negb (String.eqb m "")) (snd fm))
                         AIRCRAFT_FAMILIES = true) by reflexivity.
  intros Hfam Ht. rewrite forallb_forall in Hall.
  specialize (Hall _ Hfam). simpl in Hall. rewrite forallb_forall in Hall.
  specialize (Hall _ Ht). apply negb_true_iff in Hall.
  now apply String.eqb_neq.
Qed.

Lemma includes_Str members s :
  includes members (Str s) = true <-> In s members.
Proof.
  unfold includes. rewrite existsb_exists. split.
  - intros (m & Hin & Heq). simpl in Heq. apply String.eqb_eq in Heq. now subst.
  - intros Hin. exists s. split; [assumption|]. simpl. apply String.eqb_refl.
Qed.

Lemma includes_only_strings members v :
  includes members v = true -> exists t, v = Str t.
Proof.
  unfold includes. rewrite existsb_exists. intros (m & _ & Heq).
  apply strict_eq_true in Heq. eauto.
Qed.

(** For distinct values, the first of which passes the guard, the table
    search of [isSameFamily] decides membership in a common family. *)
Lemma isSameFamily_table e g :
  is_missing e = false -> e <> g ->
  (isSameFamily e g = true <-> same_family_values e g).
Proof.
  intros He Hne. pose proof (is_missing_truthy _ He) as Ht.
  apply strict_eq_false in Hne.
  unfold isSameFamily. rewrite Ht. cbn [negb orb]. split.
  - destruct (truthy g) eqn:Hg; cbn [negb]; [|discriminate].
    rewrite Hne, existsb_exists.
    intros ([family members] & Hin & Hboth).
    apply andb_true_iff in Hboth as [H1 H2].
    destruct (includes_only_strings _ _ H1) as [s ->].
    destruct (includes_only_strings _ _ H2) as [t ->].
    exists s, t. repeat split. exists family, members.
    rewrite includes_Str in H1, H2. auto.
  - intros (s & t & -> & -> & family & members & Hin & Hs & Ht').
    assert (Hg : truthy (Str t) = true).
    { simpl. apply negb_true_iff, String.eqb_neq.
      eapply family_members_nonempty; eauto. }
    rewrite Hg, Hne. cbn [negb]. rewrite existsb_exists.
    exists (family, members). split; [assumption|].
    apply andb_true_iff. split; now apply includes_Str.
Qed.

End ComparatorFacts.

Section ComparatorClaims.

Local Open Scope string_scope.

(** Every verdict of [compareField] is one of five. *)
Lemma compareField_verdicts field e g :
  let c := compareField field e g in
  c = excluded \/ c = wrong \/ c = partial_credit \/ c = family_credit
  \/ c = full_credit.
Proof.
  unfold compareField.
  repeat match goal with
         | |- context [if ?b then _ else _] => destruct b
         end; cbn; tauto.
Qed.

(** C1.  The claim is that [compareField('flightNumber', x, y)] is the
    excluded verdict for all [x] and [y], a missing [x] included.  The
    code does otherwise: the guard for missing values runs before the
    [switch], so for [x] equal to [null], [undefined], ['null'] or the
    empty string the flight number gets [match: false] and the numeric
    grade 0.0, whatever the ground truth. *)
Theorem flightNumber_missing_is_graded (y : jsval) :
  compareField "flightNumber" Null y = mkFC (Some false) (Some grade_0_0)
  /\ compareField "flightNumber" Undefined y = mkFC (Some false) (Some grade_0_0)
  /\ compareField "flightNumber" (Str "null") y = mkFC (Some false) (Some grade_0_0)
  /\ compareField "flightNumber" (Str "") y = mkFC (Some false) (Some grade_0_0).
Proof. repeat split. Qed.

(** The verdict of the flight number in full: excluded exactly when the
    extracted value passes the guard. *)
Lemma compareField_flightNumber x y :
  compareField "flightNumber" x y = if is_missing x then wrong else excluded.
Proof. unfold compareField. now destruct (is_missing x). Qed.

(** C6, counterexample.  The empty string is a string, not [null], and it
    is equal to itself, yet comparing it with itself as an aircraft name
    gives the wrong verdict, not full credit: the guard of [compareField]
    takes it for a missing value. *)
Lemma aircraftName_empty_string_is_wrong :
  Str "" <> Null /\ Str "" <> Undefined
  /\ compareField "aircraftName" (Str "") (Str "") = mkFC (Some false) (Some grade_0_0)
  /\ compareField "aircraftName" (Str "") (Str "") <> mkFC (Some true) (Some grade_1_0).
Proof. repeat split; discriminate. Qed.

(** C6, amended.  For an extracted aircraft name that passes the guard (a
    string other than the empty one and ['null']) the comparison has three
    tiers: equal to the ground truth, full credit with grade 1.0;
    otherwise both in one family of the table, a match with grade 0.8;
    otherwise no match and grade 0.0. *)
Theorem aircraftName_three_tiers (e g : jsval) (He : is_missing e = false) :
  (e = g -> compareField "aircraftName" e g = mkFC (Some true) (Some grade_1_0))
  /\ (e <> g -> same_family_values e g ->
      compareField "aircraftName" e g = mkFC (Some true) (Some grade_0_8))
  /\ (e <> g -> ~ same_family_values e g ->
      compareField "aircraftName" e g = mkFC (Some false) (Some grade_0_0)).
Proof.
  rewrite (compareField_aircraft _ _ He). repeat split.
  - intros ->. now rewrite strict_eq_refl.
  - intros Hne Hfam. pose proof Hne as Hne'. apply strict_eq_false in Hne'.
    rewrite Hne'. apply (isSameFamily_table _ _ He Hne) in Hfam.
    now rewrite Hfam.
  - intros Hne Hfam. pose proof Hne as Hne'. apply strict_eq_false in Hne'.
    rewrite Hne'. destruct (isSameFamily e g) eqn:Hs; [|reflexivity].
    apply (isSameFamily_table _ _ He Hne) in Hs. contradiction.
Qed.

Lemma aircraftName_three_tiers_witness :
  is_missing (Str "Boeing 737MAX") = false
  /\ compareField "aircraftName" (Str "Boeing 737MAX") (Str "Boeing 737NG")
     = mkFC (Some true) (Some grade_0_8).
Proof.
  split; [reflexivity|].
  apply (aircraftName_three_tiers (Str "Boeing 737MAX") (Str "Boeing 737NG")
                                  eq_refl).
  - discriminate.
  - exists "Boeing 737MAX", "Boeing 737NG". repeat split.
    exists "Boeing 737", ["Boeing 737NG"; "Boeing 737MAX"; "Boeing 717"].
    simpl. auto.
Defined.

(** The three aircraft examples of the specification. *)
Example aircraft_examples :
  fc_grade (compareField "aircraftName" (Str "Boeing 737MAX") (Str "Boeing 737NG"))
  = Some grade_0_8
  /\ fc_grade (compareField "aircraftName" (Str "Boeing 737NG") (Str "Boeing 737NG"))
     = Some grade_1_0
  /\ fc_grade (compareField "aircraftName" (Str "Airbus A320") (Str "Boeing 737NG"))
     = Some grade_0_0.
Proof. repeat split. Qed.

(** C7, counterexample.  The empty string compared with itself on an
    exact-match field is not a match: the guard takes it for a missing
    value. *)
Lemma exact_field_empty_string_is_wrong :
  Str "" <> Null /\ Str "" <> Undefined
  /\ compareField "airlineCode" (Str "") (Str "") = mkFC (Some false) (Some grade_0_0)
  /\ compareField "airlineCode" (Str "") (Str "") <> mkFC (Some true) (Some grade_1_0).
Proof. repeat split; discriminate. Qed.

(** C7, amended.  On the four exact-match fields a value that passes the
    guard (a string other than the empty one and ['null']) compared with
    itself is a match with grade 1.0, and two unequal values are no match,
    with grade 0.0. *)
Theorem exact_fields_equality (f : string) (e g : jsval)
    (Hf : In f exact_match_fields) :
  (is_missing e = false -> e = g ->
   compareField f e g = mkFC (Some true) (Some grade_1_0))
  /\ (e <> g -> compareField f e g = mkFC (Some false) (Some grade_0_0)).
Proof.
  split.
  - intros He ->. rewrite (compareField_exact _ _ _ Hf He).
    now rewrite strict_eq_refl.
  - intros Hne. destruct (is_missing e) eqn:He.
    + now apply compareField_missing.
    + rewrite (compareField_exact _ _ _ Hf He).
      apply strict_eq_false in Hne. now rewrite Hne.
Qed.

Lemma exact_fields_equality_witness :
  In "flightDate" exact_match_fields
  /\ compareField "flightDate" (Str "16-12-2025") (Str "16-12-2025")
     = mkFC (Some true) (Some grade_1_0)
  /\ compareField "flightDate" (Str "16-12-2025") (Str "17-12-2025")
     = mkFC (Some false) (Some grade_0_0).
Proof.
  assert (Hf : In "flightDate" exact_match_fields) by (simpl; tauto).
  split; [exact Hf|]. split.
  - apply (exact_fields_equality "flightDate" (Str "16-12-2025")
                                 (Str "16-12-2025") Hf); reflexivity.
  - apply (exact_fields_equality "flightDate" (Str "16-12-2025")
                                 (Str "17-12-2025") Hf). discriminate.
Defined.

(** C10.  For every field name and all values the grade [compareField]
    returns is [null] or one of 0.0, 0.7, 0.8 and 1.0, and a field name
    that is none of the seven gives [match: false] with grade 0.0. *)
Theorem compareField_grade_codomain (field : string) (e g : jsval) :
  (fc_grade (compareField field e g) = None
   \/ fc_grade (compareField field e g) = Some grade_0_0
   \/ fc_grade (compareField field e g) = Some grade_0_7
   \/ fc_grade (compareField field e g) = Some grade_0_8
   \/ fc_grade (compareField field e g) = Some grade_1_0)
  /\ (~ In field all_fields ->
      compareField field e g = mkFC (Some false) (Some grade_0_0)).
Proof.
  split.
  - destruct (compareField_verdicts field e g) as [H|[H|[H|[H|H]]]];
      rewrite H; cbn; tauto.
  - intros Hnot. unfold compareField.
    destruct (is_missing e); [reflexivity|].
    assert (Hne : forall k, In k all_fields -> String.eqb field k = false).
    { intros k Hk. apply String.eqb_neq. intros ->. contradiction. }
    rewrite !Hne by (simpl; tauto). reflexivity.
Qed.

Lemma compareField_grade_codomain_witness :
  ~ In "cabinClass" all_fields
  /\ compareField "cabinClass" (Str "economy") (Str "economy")
     = mkFC (Some false) (Some grade_0_0).
Proof.
  assert (Hnot : ~ In "cabinClass" all_fields).
  { simpl. intros H.
    repeat match type of H with _ \/ _ => destruct H as [H|H] end;
      try discriminate H; exact H. }
  split; [exact Hnot|].
  exact (proj2 (compareField_grade_codomain "cabinClass" (Str "economy")
                                            (Str "economy")) Hnot).
Defined.

End ComparatorClaims.

(* ===================================================================== *)
(** ** Durations *)
(* ===================================================================== *)

Section Durations.

Local Open Scope string_scope.

(** Arithmetic of the number model on integers. *)
Lemma Qred_inject_Z (z : Z) : Qred (inject_Z z) = inject_Z z.
Proof.
  unfold Qred, inject_Z.
  pose proof (Z.ggcd_gcd z 1) as Hg.
  pose proof (Z.ggcd_correct_divisors z 1) as Hd.
  destruct (Z.ggcd z 1) as [k [aa bb]]. simpl in *.
  rewrite Z.gcd_1_r in Hg. subst k. destruct Hd as [Ha Hb].
  rewrite Z.mul_1_l in Ha, Hb. now subst.
Qed.

Lemma js_mul_int (a b : Z) : js_mul (of_Z a) (of_Z b) = of_Z (a * b).
Proof.
  unfold of_Z, js_mul. f_equal. rewrite <- (Qred_inject_Z (a * b)).
  apply Qred_complete. unfold Qeq. simpl. lia.
Qed.

Lemma js_add_int (a b : Z) : js_add (of_Z a) (of_Z b) = of_Z (a + b).
Proof.
  unfold of_Z, js_add. f_equal. rewrite <- (Qred_inject_Z (a + b)).
  apply Qred_complete. unfold Qeq. simpl. lia.
Qed.

(** The comparison of a difference with a threshold, without the
    normalisations of the number model. *)
Lemma js_le_abs_sub (a b k : Q) :
  js_le (js_abs (js_sub (Fin a) (Fin b))) (Fin k) = Qle_bool (Qabs (a - b)) k.
Proof.
  cbn [js_le js_abs js_sub js_add js_neg]. apply Qleb_comp; [|reflexivity].
  rewrite Qred_correct. apply Qabs_wd. rewrite Qred_correct.
  unfold Qminus. apply Qplus_comp; [reflexivity|apply Qred_correct].
Qed.

Lemma Qle_bool_abs_int (x y k : Z) :
  Qle_bool (Qabs (inject_Z x - inject_Z y)) (inject_Z k)
  = (Z.abs (x - y) <=? k)%Z.
Proof.
  unfold Qle_bool, Qabs, Qminus, Qplus, Qopp, inject_Z. simpl.
  rewrite !Z.mul_1_r. reflexivity.
Qed.

(** Digits. *)
Lemma is_digit_cases (c : ascii) :
  is_digit c = true ->
  In c ["0"; "1"; "2"; "3"; "4"; "5"; "6"; "7"; "8"; "9"]%char.
Proof.
  destruct c as [[] [] [] [] [] [] [] []]; intros H;
    try discriminate H; simpl; tauto.
Qed.

Lemma digit_not_colon (c : ascii) :
  is_digit c = true -> Ascii.eqb c ":"%char = false.
Proof.
  intros H. apply is_digit_cases in H. simpl in H.
  repeat match type of H with _ \/ _ => destruct H as [<-|H] end;
    try reflexivity; contradiction.
Qed.

Lemma Number_two_digits (a b : ascii) :
  is_digit a = true -> is_digit b = true ->
  Number (String a (String b EmptyString))
  = of_Z (10 * digit_value a + digit_value b).
Proof.
  intros Ha Hb. apply is_digit_cases in Ha, Hb. simpl in Ha, Hb.
  repeat match type of Ha with _ \/ _ => destruct Ha as [<-|Ha] end;
    try contradiction;
    repeat match type of Hb with _ \/ _ => destruct Hb as [<-|Hb] end;
    try contradiction; vm_compute; reflexivity.
Qed.

Lemma is_hhmm_shape (s : string) :
  is_hhmm s = true ->
  exists a b d e,
    s = String a (String b (String ":"%char (String d (String e EmptyString))))
    /\ is_digit a = true /\ is_digit b = true
    /\ is_digit d = true /\ is_digit e = true.
Proof.
  destruct s as [|a [|b [|c [|d [|e [|x r]]]]]]; simpl; try discriminate.
  intros H.
  apply andb_true_iff in H as [H He]. apply andb_true_iff in H as [H Hd].
  apply andb_true_iff in H as [H Hc]. apply andb_true_iff in H as [Ha Hb].
  apply Ascii.eqb_eq in Hc. subst c.
  exists a, b, d, e. repeat split; assumption.
Qed.

Lemma is_hhmm_not_missing (s : string) :
  is_hhmm s = true -> is_missing (Str s) = false.
Proof.
  intros H. apply is_missing_false. exists s. split; [reflexivity|].
  destruct (is_hhmm_shape s H) as (a & b & d & e & -> & _).
  split; intros E; apply (f_equal String.length) in E; discriminate E.
Qed.

(** An [HH:MM] string is read as the minutes it denotes. *)
Lemma timeToMinutes_hhmm (s : string) :
  is_hhmm s = true -> timeToMinutes (Str s) = Some (of_Z (hhmm_minutes s)).
Proof.
  intros H. pose proof (is_hhmm_not_missing s H) as Hm.
  destruct (is_hhmm_shape s H) as (a & b & d & e & -> & Ha & Hb & Hd & He).
  unfold timeToMinutes.
  assert (Hg : negb (truthy (Str (String a (String b (String ":"%char
                 (String d (String e EmptyString)))))))
               || strict_eq (Str (String a (String b (String ":"%char
                 (String d (String e EmptyString)))))) (Str "null") = false).
  { unfold is_missing in Hm. apply orb_false_iff in Hm as [Hm _]. exact Hm. }
  rewrite Hg.
  cbn [split_colon]. rewrite (digit_not_colon a Ha), (digit_not_colon b Hb),
    (digit_not_colon d Hd), (digit_not_colon e He).
  cbn [Ascii.eqb Bool.eqb map nth].
  rewrite (Number_two_digits a b Ha Hb), (Number_two_digits d e Hd He).
  rewrite js_mul_int, js_add_int. f_equal. f_equal. cbn [hhmm_minutes]. lia.
Qed.

(** The comparison of two values that both read as whole minutes. *)
Lemma compareField_flightTime_finite (e g : jsval) (a b : Z) :
  is_missing e = false ->
  timeToMinutes e = Some (of_Z a) -> timeToMinutes g = Some (of_Z b) ->
  compareField "flightTime" e g = duration_tier (Z.abs (a - b)).
Proof.
  intros He Ha Hb. rewrite (compareField_flightTime _ _ He).
  unfold getTimeDiffMinutes. rewrite Ha, Hb.
  unfold of_Z. rewrite !js_le_abs_sub, !Qle_bool_abs_int. reflexivity.
Qed.

(** A value one side of which gives no finite minutes is never a match. *)
Lemma compareField_flightTime_no_minutes (e g : jsval) :
  is_missing e = false -> no_minutes e \/ no_minutes g ->
  compareField "flightTime" e g = wrong.
Proof.
  intros He Hno. rewrite (compareField_flightTime _ _ He).
  unfold getTimeDiffMinutes, no_minutes in *.
  destruct (timeToMinutes e) as [[a| | |]|], (timeToMinutes g) as [[b| | |]|];
    try reflexivity.
  destruct Hno as [[]|[]].
Qed.

(** A string without a colon gives NaN minutes. *)
Lemma timeToMinutes_no_colon (s p : string) :
  is_missing (Str s) = false -> split_colon s = [p] ->
  timeToMinutes (Str s) = Some NaN.
Proof.
  intros Hm Hs. unfold timeToMinutes.
  unfold is_missing in Hm. apply orb_false_iff in Hm as [Hm _].
  rewrite Hm, Hs. cbn [map nth]. f_equal.
  now destruct (js_mul (Number p) (of_Z 60)).
Qed.

(** C5, counterexample.  The string [":"] is not an [HH:MM] duration, and
    it is neither [null] nor missing; [split] cuts it into two empty
    pieces, [Number] maps each to 0, and against the ground truth
    ["00:00"] the comparison is a match with grade 1.0, not the wrong
    verdict. *)
Lemma flightTime_colon_only_is_full_credit :
  is_hhmm ":" = false /\ is_missing (Str ":") = false
  /\ compareField "flightTime" (Str ":") (Str "00:00")
     = mkFC (Some true) (Some grade_1_0)
  /\ compareField "flightTime" (Str ":") (Str "00:00")
     <> mkFC (Some false) (Some grade_0_0).
Proof. repeat split; discriminate. Qed.

(** A text with two pieces at least is neither missing nor the sentinel,
    and its minutes are 60 times the first piece plus the second. *)
Lemma timeToMinutes_pieces (s hours mins : string) (rest : list string) :
  split_colon s = hours :: mins :: rest ->
  is_missing (Str s) = false
  /\ timeToMinutes (Str s)
     = Some (js_add (js_mul (Number hours) (of_Z 60)) (Number mins)).
Proof.
  intros Hs.
  assert (Hm : is_missing (Str s) = false).
  { apply is_missing_false. exists s. split; [reflexivity|].
    split; intros ->; discriminate Hs. }
  split; [exact Hm|].
  unfold timeToMinutes. unfold is_missing in Hm.
  apply orb_false_iff in Hm as [Hm _]. rewrite Hm, Hs. reflexivity.
Qed.

Lemma reads_as_minutes (s : string) (h m : Z) :
  reads_as s h m ->
  is_missing (Str s) = false
  /\ timeToMinutes (Str s) = Some (of_Z (60 * h + m)).
Proof.
  intros (hours & mins & rest & Hs & Hh & Hmin & _).
  destruct (timeToMinutes_pieces _ _ _ _ Hs) as [Hm Ht].
  split; [exact Hm|]. rewrite Ht, Hh, Hmin, js_mul_int, js_add_int.
  do 2 f_equal. lia.
Qed.

Lemma unreadable_no_minutes (s : string) : unreadable s -> no_minutes (Str s).
Proof.
  unfold no_minutes. intros [(piece & Hs)|(hours & mins & rest & Hs & Hnan)].
  - destruct (is_missing (Str s)) eqn:Hm.
    + unfold timeToMinutes. unfold is_missing in Hm.
      rewrite orb_false_r in Hm. now rewrite Hm.
    + now rewrite (timeToMinutes_no_colon _ _ Hm Hs).
  - destruct (timeToMinutes_pieces _ _ _ _ Hs) as [_ ->].
    destruct Hnan as [-> | ->]; [reflexivity|].
    now destruct (js_mul (Number hours) (of_Z 60)).
Qed.

Lemma is_missing_no_minutes (g : jsval) : is_missing g = true -> no_minutes g.
Proof.
  unfold no_minutes, timeToMinutes, is_missing. intros H.
  destruct g as [| |s]; try exact I.
  cbn [strict_eq jsval_eqb] in *. rewrite orb_false_r in H. now rewrite H.
Qed.

(** C5, amended.  For two [HH:MM] strings the comparison goes by the
    absolute difference of their minutes: at most 15, a match with grade
    1.0; more than 15 and at most 30, a match with grade 0.7; more than
    30, no match and grade 0.0.  An extracted value that passes the guard
    is no match, with grade 0.0, whenever the code obtains no finite
    number of minutes from it or from the ground truth, as when the
    ground truth is missing, when either text has no colon, or when one of
    its first two pieces is not numeric text.  The form [HH:MM] itself is
    not checked: two texts whose first two pieces [Number] reads as whole
    numbers (of magnitude up to 10^12) are graded by the same tiers on the
    difference of 60 times the first plus the second; so [":"] is 0
    minutes and ["1:30"] is 90, and each is full credit against the
    [HH:MM] text of the same minutes. *)
Theorem flightTime_tiers :
  (forall e g : string,
      is_hhmm e = true -> is_hhmm g = true ->
      compareField "flightTime" (Str e) (Str g)
      = duration_tier (Z.abs (hhmm_minutes e - hhmm_minutes g)))
  /\ (forall (e : string) (g : jsval),
        is_missing (Str e) = false ->
        no_minutes (Str e) \/ no_minutes g ->
        compareField "flightTime" (Str e) g
        = mkFC (Some false) (Some grade_0_0))
  /\ (forall (e : string) (g : jsval),
        is_missing (Str e) = false ->
        unreadable e \/ is_missing g = true
        \/ (exists s, g = Str s /\ unreadable s) ->
        compareField "flightTime" (Str e) g
        = mkFC (Some false) (Some grade_0_0))
  /\ (forall (e g : string) (h m h' m' : Z),
        reads_as e h m -> reads_as g h' m' ->
        compareField "flightTime" (Str e) (Str g)
        = duration_tier (Z.abs ((60 * h + m) - (60 * h' + m'))))
  /\ is_hhmm ":" = false /\ reads_as ":" 0 0
  /\ is_hhmm "1:30" = false /\ reads_as "1:30" 1 30
  /\ compareField "flightTime" (Str ":") (Str "00:00")
     = mkFC (Some true) (Some grade_1_0)
  /\ compareField "flightTime" (Str "1:30") (Str "01:30")
     = mkFC (Some true) (Some grade_1_0).
Proof.
  split; [|split; [|split; [|split]]].
  - intros e g Hhe Hhg.
    apply (compareField_flightTime_finite _ _ _ _ (is_hhmm_not_missing e Hhe)
             (timeToMinutes_hhmm e Hhe) (timeToMinutes_hhmm g Hhg)).
  - intros e g He. apply (compareField_flightTime_no_minutes _ _ He).
  - intros e g He H. apply (compareField_flightTime_no_minutes _ _ He).
    destruct H as [H|[H|(s & -> & H)]].
    + left. now apply unreadable_no_minutes.
    + right. now apply is_missing_no_minutes.
    + right. now apply unreadable_no_minutes.
  - intros e g h m h' m' He Hg.
    destruct (reads_as_minutes _ _ _ He) as [Hm Hte].
    destruct (reads_as_minutes _ _ _ Hg) as [_ Htg].
    apply (compareField_flightTime_finite _ _ _ _ Hm Hte Htg).
  - assert (Hsmall : forall z, (Z.abs z <=? 10 ^ 12)%Z = true -> small z).
    { intros z H. now apply Z.leb_le in H. }
    repeat split.
    + exists "", "", []. repeat split; now apply Hsmall.
    + exists "1", "30", []. repeat split; now apply Hsmall.
Qed.

Lemma flightTime_tiers_witness :
  compareField "flightTime" (Str "01:30") (Str "02:00")
  = mkFC (Some true) (Some grade_0_7)
  /\ compareField "flightTime" (Str "01:30") (Str "soon")
     = mkFC (Some false) (Some grade_0_0)
  /\ compareField "flightTime" (Str "01:30") Undefined
     = mkFC (Some false) (Some grade_0_0)
  /\ compareField "flightTime" (Str "1:30") (Str "0:110")
     = mkFC (Some true) (Some grade_0_7).
Proof.
  destruct flightTime_tiers as (Hhhmm & Hnone & Hunreadable & Hreads & _).
  split; [|split; [|split]].
  - exact (Hhhmm "01:30" "02:00" eq_refl eq_refl).
  - apply (Hnone "01:30" (Str "soon") eq_refl). right. exact I.
  - apply (Hunreadable "01:30" Undefined eq_refl). right. left. reflexivity.
  - apply (Hreads "1:30" "0:110" 1 30 0 110).
    + exists "1", "30", []. repeat split; apply Z.leb_le; reflexivity.
    + exists "0", "110", []. repeat split; apply Z.leb_le; reflexivity.
Defined.

(** The boundary examples of the specification: differences of 15, 30 and
    31 minutes. *)
Example flightTime_boundaries :
  compareField "flightTime" (Str "01:30") (Str "01:45") = full_credit
  /\ compareField "flightTime" (Str "01:30") (Str "02:00") = partial_credit
  /\ compareField "flightTime" (Str "01:30") (Str "02:01") = wrong.
Proof. repeat split. Qed.

End Durations.

(* ===================================================================== *)
(** ** The aggregate scorer: per-field metrics *)
(* ===================================================================== *)

Section FieldMetricsFacts.

Local Open Scope Q_scope.

Lemma q_is_zero_Qeq (q : Q) : q_is_zero q = true -> q == 0.
Proof.
  unfold q_is_zero, Qeq. intros H. apply Z.eqb_eq in H. rewrite H. reflexivity.
Qed.

Lemma js_gt_zero (q : Q) : js_gt (Fin q) zero = negb (Qle_bool q 0).
Proof. reflexivity. Qed.

Lemma js_gt_of_nat (n : nat) : js_gt (of_nat n) zero = (0 <? n)%nat.
Proof.
  unfold of_nat. rewrite js_gt_zero. unfold Qle_bool, inject_Z. simpl.
  rewrite Z.mul_1_r. destruct n; reflexivity.
Qed.

(** A division of two numbers the second of which is positive is finite. *)
Lemma js_div_pos (x y : Q) :
  Qle_bool y 0 = false -> js_div (Fin x) (Fin y) = Fin (Qred (x / y)).
Proof.
  intros Hy. unfold js_div. destruct (q_is_zero y) eqn:Hz; [|reflexivity].
  apply q_is_zero_Qeq in Hz.
  assert (Hle : Qle_bool y 0 = true) by (apply Qle_bool_iff; rewrite Hz; apply Qle_refl).
  congruence.
Qed.

(** The guarded ratio of two counts, the form of precision and recall. *)
Lemma guarded_ratio (c e : nat) :
  exists p : Q,
    (if js_gt (of_nat e) zero then js_div (of_nat c) (of_nat e) else zero) = Fin p
    /\ p == (if (0 <? e)%nat
             then inject_Z (Z.of_nat c) / inject_Z (Z.of_nat e) else 0).
Proof.
  pose proof (js_gt_of_nat e) as Hgt. rewrite Hgt.
  destruct (0 <? e)%nat eqn:He.
  - unfold of_nat in *. rewrite js_gt_zero in Hgt.
    apply negb_true_iff in Hgt. rewrite (js_div_pos _ _ Hgt).
    eexists. split; [reflexivity|]. apply Qred_correct.
  - exists 0. split; reflexivity.
Qed.

(** The guarded harmonic mean, the form of f1. *)
Lemma guarded_f1 (p r : Q) :
  exists f : Q,
    (if js_gt (js_add (Fin p) (Fin r)) zero
     then js_div (js_mul (of_Z 2) (js_mul (Fin p) (Fin r)))
                 (js_add (Fin p) (Fin r))
     else zero) = Fin f
    /\ f == (if Qle_bool (p + r) 0 then 0 else 2 * (p * r) / (p + r)).
Proof.
  cbn [js_add js_mul of_Z]. rewrite js_gt_zero.
  assert (Hc : Qle_bool (Qred (p + r)) 0 = Qle_bool (p + r) 0).
  { apply Qleb_comp; [apply Qred_correct|reflexivity]. }
  rewrite Hc. destruct (Qle_bool (p + r) 0) eqn:Hle; cbn [negb].
  - exists 0. split; reflexivity.
  - rewrite (js_div_pos _ _ Hc).
    eexists. split; [reflexivity|].
    rewrite !Qred_correct. reflexivity.
Qed.

(** The three raw metrics are finite numbers, given by the guarded
    formulas. *)
Lemma calculateFieldMetrics_formulas (results : list EvalResult) (field : string) :
  exists p r f : Q,
    fm_precisionRaw (calculateFieldMetrics results field) = Fin p
    /\ fm_recallRaw (calculateFieldMetrics results field) = Fin r
    /\ fm_f1Raw (calculateFieldMetrics results field) = Fin f
    /\ p == (if (0 <? fm_extracted (calculateFieldMetrics results field))%nat
             then inject_Z (Z.of_nat (fm_correct (calculateFieldMetrics results field)))
                  / inject_Z (Z.of_nat (fm_extracted (calculateFieldMetrics results field)))
             else 0)
    /\ r == (if (0 <? fm_total (calculateFieldMetrics results field))%nat
             then inject_Z (Z.of_nat (fm_correct (calculateFieldMetrics results field)))
                  / inject_Z (Z.of_nat (fm_total (calculateFieldMetrics results field)))
             else 0)
    /\ f == (if Qle_bool (p + r) 0 then 0 else 2 * (p * r) / (p + r)).
Proof.
  unfold calculateFieldMetrics. cbn [fm_precisionRaw fm_recallRaw fm_f1Raw
    fm_extracted fm_correct fm_total].
  match goal with
  | |- context [js_div (of_nat ?c) (of_nat ?e)] =>
      destruct (guarded_ratio c e) as (p & Hp & Hpq)
  end.
  match goal with
  | |- context [js_div (of_nat ?c) (of_nat (length results))] =>
      destruct (guarded_ratio c (length results)) as (r & Hr & Hrq)
  end.
  rewrite Hp, Hr.
  destruct (guarded_f1 p r) as (f & Hf & Hfq).
  exists p, r, f. rewrite Hf. repeat split; assumption.
Qed.

(** On a batch every case of which carries its extracted record, the
    first filter returns, and keeps the cases whose value is present. *)
Lemma filter_extracted_returns (field : string) (results : list Runs.Item) :
  carry_extracted results ->
  exists kept : list Runs.Item,
    Runs.filter_extracted field results = Runs.Returned kept
    /\ length kept = count_cases (field_present field) results.
Proof.
  unfold carry_extracted.
  induction 1 as [|r rest Hr _ (kept & IH & Hlen)];
    [exists []; split; reflexivity|].
  cbn [Runs.filter_extracted count_cases]. unfold field_present at 1.
  destruct (Runs.i_extracted r) as [ext|]; [|contradiction].
  rewrite IH. unfold get.
  destruct (ext !! field) as [[| |s]|]; cbn [default from_option id];
    try (exists kept; split; [reflexivity|exact Hlen]).
  unfold is_extracted. cbn [strict_eq jsval_eqb negb andb].
  destruct (String.eqb s "null"); cbn [negb].
  - exists kept. split; [reflexivity|exact Hlen].
  - exists (r :: kept). split; [reflexivity|]. cbn [length]. now rewrite Hlen.
Qed.

(** An element without [extracted] makes the first filter, and with it the
    call, throw. *)
Lemma calculateFieldMetrics_throws (field : string) (results : list Runs.Item)
    (r : Runs.Item) :
  In r results -> Runs.i_extracted r = None ->
  Runs.calculateFieldMetrics results field = Runs.Thrown.
Proof.
  intros Hin Hr. unfold Runs.calculateFieldMetrics.
  assert (Hf : Runs.filter_extracted field results = Runs.Thrown).
  { induction results as [|x rest IH]; [destruct Hin|].
    cbn [Runs.filter_extracted]. destruct Hin as [->|Hin].
    - now rewrite Hr.
    - destruct (Runs.i_extracted x); [|reflexivity]. now rewrite (IH Hin). }
  now rewrite Hf.
Qed.

Lemma count_cases_filter (p : Runs.Item -> bool) (results : list Runs.Item) :
  length (List.filter p results) = count_cases p results.
Proof.
  induction results as [|r rest IH]; [reflexivity|].
  cbn [List.filter count_cases]. destruct (p r); cbn [length]; now rewrite IH.
Qed.

Lemma ratio_or_zero_finite (c n : nat) :
  (if js_gt (of_nat n) zero then js_div (of_nat c) (of_nat n) else zero)
  = ratio_or_zero c n
  /\ is_finite (ratio_or_zero c n).
Proof.
  destruct (guarded_ratio c n) as (p & Hp & _).
  unfold ratio_or_zero. rewrite js_gt_of_nat in Hp.
  rewrite js_gt_of_nat. split; [reflexivity|].
  unfold zero in Hp. rewrite Hp. exact I.
Qed.

Lemma harmonic_or_zero_finite (p r : jsnum) :
  is_finite p -> is_finite r -> is_finite (harmonic_or_zero p r).
Proof.
  destruct p as [p| | |], r as [r| | |]; try contradiction. intros _ _.
  destruct (guarded_f1 p r) as (f & Hf & _).
  unfold harmonic_or_zero. unfold zero in Hf. rewrite Hf. exact I.
Qed.

(** On results that carry [extracted] the call returns what the scorer of
    [Metrics] computes. *)
Lemma calculateFieldMetrics_of_results (results : list EvalResult)
    (field : string) :
  Runs.calculateFieldMetrics (map Runs.item_of results) field
  = Runs.Returned (calculateFieldMetrics results field).
Proof.
  unfold Runs.calculateFieldMetrics, calculateFieldMetrics.
  assert (Hf : Runs.filter_extracted field (map Runs.item_of results)
               = Runs.Returned
                   (map Runs.item_of
                      (List.filter
                         (fun r => is_extracted (get Undefined (r_extracted r) field))
                         results))).
  { induction results as [|r rest IH]; [reflexivity|].
    cbn [map Runs.filter_extracted Runs.item_of Runs.i_extracted List.filter].
    rewrite IH.
    now destruct (is_extracted (get Undefined (r_extracted r) field)). }
  rewrite Hf, !length_map.
  assert (Hc : forall l : list EvalResult,
             List.filter
               (fun r => match Runs.i_comparison r with
                         | Some cmp => match cmp !! field with
                                       | Some c => match_is_true c
                                       | None => false
                                       end
                         | None => false
                         end) (map Runs.item_of l)
             = map Runs.item_of
                 (List.filter
                    (fun r => match r_comparison r with
                              | Some cmp => match cmp !! field with
                                            | Some c => match_is_true c
                                            | None => false
                                            end
                              | None => false
                              end) l)).
  { induction l as [|r rest IH]; [reflexivity|].
    cbn [map List.filter Runs.item_of Runs.i_comparison].
    rewrite IH. now destruct (r_comparison r) as [cmp|]; [destruct (cmp !! field) as [c|]; [destruct (match_is_true c)|]|]. }
  now rewrite Hc, length_map.
Qed.

(** C8.  On every batch whose cases carry their extracted record, and for
    every field name that is not one of the properties an object inherits,
    [calculateFieldMetrics] returns, never throwing: the total is the
    number of cases, extracted the number of cases whose value of the
    field is present, correct the number of cases whose comparison of the
    field is a match; precision is correct/extracted when some value was
    extracted and 0 otherwise, recall is correct/total when the batch is
    not empty and 0 otherwise, f1 is 2 precision recall/(precision +
    recall) when that sum is positive and 0 otherwise; all three are
    finite numbers, neither NaN nor an infinity, and on the empty batch
    all three are 0.  On results that carry [extracted] by construction
    this is the value of the scorer of [Metrics]. *)
Theorem calculateFieldMetrics_finite (results : list Runs.Item)
    (field : string)
    (Hcases : carry_extracted results)
    (Hfield : inherited_key field = false) :
  (exists m : FieldMetrics,
      Runs.calculateFieldMetrics results field = Runs.Returned m
      /\ fm_total m = length results
      /\ fm_extracted m = count_cases (field_present field) results
      /\ fm_correct m = count_cases (field_correct field) results
      /\ fm_precisionRaw m = ratio_or_zero (fm_correct m) (fm_extracted m)
      /\ fm_recallRaw m = ratio_or_zero (fm_correct m) (fm_total m)
      /\ fm_f1Raw m = harmonic_or_zero (fm_precisionRaw m) (fm_recallRaw m)
      /\ is_finite (fm_precisionRaw m)
      /\ is_finite (fm_recallRaw m)
      /\ is_finite (fm_f1Raw m)
      /\ (results = [] ->
          fm_precisionRaw m = Fin 0 /\ fm_recallRaw m = Fin 0
          /\ fm_f1Raw m = Fin 0))
  /\ (forall rs : list EvalResult,
        Runs.calculateFieldMetrics (map Runs.item_of rs) field
        = Runs.Returned (calculateFieldMetrics rs field)).
Proof.
  split; [|intros rs; apply calculateFieldMetrics_of_results].
  destruct (filter_extracted_returns field results Hcases)
    as (kept & Hkept & Hlen).
  unfold Runs.calculateFieldMetrics. rewrite Hkept.
  eexists. split; [reflexivity|].
  cbn [fm_total fm_extracted fm_correct fm_precisionRaw fm_recallRaw fm_f1Raw].
  match goal with
  | |- context [length (List.filter ?p results)] =>
      set (correct := length (List.filter p results));
      assert (Hcorrect : correct = count_cases (field_correct field) results)
        by (unfold correct; apply count_cases_filter)
  end.
  destruct (ratio_or_zero_finite correct (length kept)) as [Hp Hpf].
  destruct (ratio_or_zero_finite correct (length results)) as [Hr Hrf].
  rewrite Hp, Hr.
  split; [reflexivity|]. split; [exact Hlen|]. split; [exact Hcorrect|].
  split; [reflexivity|]. split; [reflexivity|]. split; [reflexivity|].
  split; [exact Hpf|]. split; [exact Hrf|].
  split; [now apply harmonic_or_zero_finite|].
  intros ->. subst correct. cbn in Hlen. rewrite Hlen. repeat split.
Qed.

(** None of the seven field names is the name of an inherited
    property. *)
Lemma all_fields_not_inherited :
  Forall (fun field => inherited_key field = false) all_fields.
Proof. repeat constructor. Qed.

Lemma calculateFieldMetrics_finite_witness :
  exists m : FieldMetrics,
    Runs.calculateFieldMetrics (map Runs.item_of scenario_batch) "aircraftName"
    = Runs.Returned m
    /\ fm_total m = 1%nat /\ fm_extracted m = 1%nat /\ fm_correct m = 1%nat
    /\ fm_precisionRaw m = Fin 1 /\ fm_recallRaw m = Fin 1
    /\ fm_f1Raw m = Fin 1.
Proof.
  assert (Hcases : carry_extracted (map Runs.item_of scenario_batch)).
  { repeat constructor. discriminate. }
  destruct (calculateFieldMetrics_finite
              (map Runs.item_of scenario_batch) "aircraftName" Hcases eq_refl)
    as [(m & Hm & Ht & He & Hc & Hp & Hr & Hf & _) _].
  exists m. split; [exact Hm|].
  assert (Hc1 : fm_correct m = 1%nat) by (rewrite Hc; vm_compute; reflexivity).
  assert (He1 : fm_extracted m = 1%nat) by (rewrite He; vm_compute; reflexivity).
  assert (Ht1 : fm_total m = 1%nat) by (rewrite Ht; reflexivity).
  assert (Hp1 : fm_precisionRaw m = Fin 1)
    by (rewrite Hp, Hc1, He1; vm_compute; reflexivity).
  assert (Hr1 : fm_recallRaw m = Fin 1)
    by (rewrite Hr, Hc1, Ht1; vm_compute; reflexivity).
  repeat split; try assumption.
  rewrite Hf, Hp1, Hr1. vm_compute. reflexivity.
Defined.

(** The f1 of a field is the finite number [f1_of] names. *)
Lemma f1Raw_f1_of (results : list EvalResult) (field : string) :
  fm_f1Raw (calculateFieldMetrics results field) = Fin (f1_of results field).
Proof.
  destruct (calculateFieldMetrics_formulas results field)
    as (p & r & f & _ & _ & Hf & _).
  unfold f1_of. now rewrite Hf.
Qed.

End FieldMetricsFacts.

(* ===================================================================== *)
(** ** The aggregate scorer: the overall weighted score *)
(* ===================================================================== *)

Section OverallScore.

Local Open Scope string_scope.

(** A loop that stores [F field] under every field of a list. *)
Lemma fold_insert_lookup {V} (F : string -> V) (fields : list string)
    (acc : gmap string V) (f : string) :
  fold_left (fun o field => <[field := F field]> o) fields acc !! f
  = if decide (f ∈ fields) then Some (F f) else acc !! f.
Proof.
  revert acc. induction fields as [|x xs IH]; intros acc; cbn [fold_left].
  - destruct (decide (f ∈ [])) as [H|H]; [|reflexivity].
    now apply elem_of_nil in H.
  - rewrite IH.
    destruct (decide (f ∈ xs)) as [Hxs|Hxs], (decide (f ∈ x :: xs)) as [Hx|Hx];
      try reflexivity.
    + exfalso. apply Hx, list_elem_of_further, Hxs.
    + apply elem_of_cons in Hx as [->|Hx]; [apply lookup_insert_eq|contradiction].
    + apply lookup_insert_ne. intros ->. apply Hx, list_elem_of_here.
Qed.

Lemma field_metrics_table_lookup results fields f :
  f ∈ fields ->
  field_metrics_table results fields !! f = Some (calculateFieldMetrics results f).
Proof.
  intros H. unfold field_metrics_table.
  rewrite (fold_insert_lookup (calculateFieldMetrics results)).
  now case_decide.
Qed.





Lemma weight_of_scored :
  weight_of "airlineCode" = Fin 0.5
  /\ weight_of "departureAirportCode" = Fin 0.5
  /\ weight_of "arrivalAirportCode" = Fin 0.5
  /\ weight_of "flightDate" = Fin 0.5
  /\ weight_of "aircraftName" = Fin 1.5
  /\ weight_of "flightTime" = Fin 1.5.
Proof. repeat split; vm_compute; reflexivity. Qed.

(** A field outside the table weighs 1.0. *)
Lemma weight_of_flightNumber : weight_of "flightNumber" = Fin 1.0.
Proof. vm_compute. reflexivity. Qed.

(** The two sums of the second loop on the six scored fields. *)
Lemma weighted_sums_scored (rs : list EvalResult) :
  exists s : Q,
    weighted_sums (field_metrics_table rs scored_fields) scored_fields
    = (Fin s, Fin 5)
    /\ (s == 0.5 * f1_of rs "airlineCode"
            + 0.5 * f1_of rs "departureAirportCode"
            + 0.5 * f1_of rs "arrivalAirportCode"
            + 0.5 * f1_of rs "flightDate"
            + 1.5 * f1_of rs "aircraftName"
            + 1.5 * f1_of rs "flightTime")%Q.
Proof.
  destruct weight_of_scored as (W1 & W2 & W3 & W4 & W5 & W6).
  unfold weighted_sums. cbn [fold_left scored_fields].
  rewrite !field_metrics_table_lookup
    by (apply list_elem_of_In; simpl; tauto).
  rewrite W1, W2, W3, W4, W5, W6, !f1Raw_f1_of.
  cbn [js_add js_mul zero].
  eexists. split.
  - apply f_equal2; [reflexivity|]. vm_compute. reflexivity.
  - rewrite !Qred_correct. ring.
Qed.



End OverallScore.

(* ===================================================================== *)
(** ** The aggregate scorer on whole cases *)
(* ===================================================================== *)

Section SummaryFacts.

Local Open Scope string_scope.

(** The comparison object holds, under each of the seven field names, the
    verdict of [compareField] on the two values of that name. *)
Lemma compareAllFields_lookup (e g : gmap string jsval) (k : string) :
  compareAllFields e g !! k
  = if decide (k ∈ all_fields)
    then Some (compareField k (get Undefined e k) (get Undefined g k))
    else None.
Proof.
  unfold compareAllFields.
  rewrite (fold_insert_lookup
             (fun k => compareField k (get Undefined e k) (get Undefined g k))).
  case_decide; [reflexivity|apply lookup_empty].
Qed.

Lemma in_values {V} (o : gmap string V) (k : string) (v : V) :
  o !! k = Some v -> In v (values o).
Proof.
  intros H. apply list_elem_of_In. unfold values.
  apply list_elem_of_fmap. exists (k, v). split; [reflexivity|].
  now apply elem_of_map_to_list.
Qed.

(** The flight number of a case that went through [compareAllFields] is
    never a match, so such a case is never counted as perfect. *)
Lemma is_perfect_evaluate (e g : gmap string jsval) (fl : list string) :
  is_perfect (evaluate e g fl) = false.
Proof.
  unfold is_perfect, evaluate. cbn [r_comparison].
  apply not_true_iff_false. intros H. rewrite forallb_forall in H.
  assert (Hk : compareAllFields e g !! "flightNumber"
               = Some (compareField "flightNumber"
                         (get Undefined e "flightNumber")
                         (get Undefined g "flightNumber"))).
  { rewrite compareAllFields_lookup. case_decide as Hin; [reflexivity|].
    exfalso. apply Hin, list_elem_of_here. }
  specialize (H _ (in_values _ _ _ Hk)).
  rewrite compareField_flightNumber in H.
  destruct (is_missing (get Undefined e "flightNumber")); discriminate H.
Qed.

Lemma perfectMatches_filter (results : list EvalResult) :
  perfectMatches (getSummaryStats results)
  = length (List.filter is_perfect results).
Proof. unfold getSummaryStats. now destruct (grade_totals results). Qed.

Lemma perfectMatches_of_evaluated
    (cases : list (gmap string jsval * gmap string jsval * list string)) :
  perfectMatches
    (getSummaryStats (map (fun '(e, g, fl) => evaluate e g fl) cases))
  = 0%nat.
Proof.
  rewrite perfectMatches_filter.
  induction cases as [|[[e g] fl] cases IH]; [reflexivity|].
  cbn [map List.filter]. now rewrite is_perfect_evaluate.
Qed.

(** C2, counterexample.  On the scenario the overall weighted F1 is not a
    number strictly between 0.8 and 1.0, and it is not 0.85. *)
Lemma scenario_overall_is_not_0_85 :
  ~ (exists q : Q,
        overallScore scenario_batch = Fin q
        /\ (0.8 < q)%Q /\ (q < 1)%Q /\ (q == 0.85)%Q).
Proof.
  intros (q & Hq & _ & Hlt & _).
  assert (H1 : overallScore scenario_batch = Fin 1) by (vm_compute; reflexivity).
  rewrite H1 in Hq. injection Hq as <-.
  revert Hlt. unfold Qlt. simpl. lia.
Qed.

(** C2, amended.  On the scenario the six scored comparisons have the
    grades 1.0, 1.0, 1.0, 1.0, 0.8 and 0.7, all six are matches, and the
    overall weighted F1 is exactly 1: precision, recall and f1 count
    matches and do not see the grades. *)
Theorem scenario_grades_and_overall :
  scored_grades (compareAllFields scenario_extracted scenario_groundTruth)
  = [Some grade_1_0; Some grade_1_0; Some grade_1_0; Some grade_1_0;
     Some grade_0_8; Some grade_0_7]
  /\ scored_matches (compareAllFields scenario_extracted scenario_groundTruth)
     = [Some true; Some true; Some true; Some true; Some true; Some true]
  /\ map (fun f => fm_f1Raw (calculateFieldMetrics scenario_batch f))
         scored_fields
     = [Fin 1; Fin 1; Fin 1; Fin 1; Fin 1; Fin 1]
  /\ overallScore scenario_batch = Fin 1.
Proof. repeat split; vm_compute; reflexivity. Qed.

(** C3.  The claim is that [perfectMatches] counts the cases all of whose
    non-excluded comparisons are matches.  On the batch of one case whose
    seven extracted fields equal the ground truth, that count is 1; the
    code returns 0, because its test [c.match === true] is also applied to
    the excluded flight number, whose [match] is [null]. *)
Theorem perfectMatches_misses_perfect_case :
  length (List.filter perfect_on_scored perfect_batch) = 1%nat
  /\ scored_matches (compareAllFields complete_record complete_record)
     = [Some true; Some true; Some true; Some true; Some true; Some true]
  /\ compareAllFields complete_record complete_record !! "flightNumber"
     = Some (mkFC None None)
  /\ perfectMatches (getSummaryStats perfect_batch) = 0%nat.
Proof. repeat split; vm_compute; reflexivity. Qed.

(** C4.  The claim is that no grade of the flight number enters
    [avgGrade].  On the batch of one case whose six scored fields equal the
    ground truth and whose flight number was not found, the six scored
    grades are all 1.0, but the flight number is graded 0.0 by the guard
    for missing values and the code averages seven grades: 6/7 instead of
    1.  With the flight number found the average is 1. *)
Theorem avgGrade_counts_missing_flightNumber :
  scored_grades (compareAllFields record_without_number complete_record)
  = [Some grade_1_0; Some grade_1_0; Some grade_1_0; Some grade_1_0;
     Some grade_1_0; Some grade_1_0]
  /\ compareAllFields record_without_number complete_record !! "flightNumber"
     = Some (mkFC (Some false) (Some grade_0_0))
  /\ avgGradeRaw (getSummaryStats numberless_batch) = Fin (6 # 7)
  /\ avgGradeRaw (getSummaryStats perfect_batch) = Fin 1.
Proof. repeat split; vm_compute; reflexivity. Qed.

End SummaryFacts.

(* ===================================================================== *)
(** ** The average grade *)
(* ===================================================================== *)

Section AverageGrade.

Local Open Scope Q_scope.

Lemma Qsum_app (l l' : list Q) : Qsum (l ++ l') == Qsum l + Qsum l'.
Proof.
  induction l as [|x l IH]; cbn [Qsum fold_right app].
  - now rewrite Qplus_0_l.
  - fold (Qsum (l ++ l')). fold (Qsum l). rewrite IH. ring.
Qed.

(** Every verdict of [compareField] is well graded. *)
Lemma compareField_well_graded field e g :
  well_graded (compareField field e g).
Proof.
  destruct (compareField_verdicts field e g) as [H|[H|[H|[H|H]]]];
    rewrite H; [left; now split|right..]; eexists _, _; split; reflexivity.
Qed.

Lemma compareAllFields_well_graded (e g : gmap string jsval) :
  Forall well_graded (values (compareAllFields e g)).
Proof.
  apply Forall_forall. intros c Hc. unfold values in Hc.
  apply list_elem_of_fmap in Hc as ([k c'] & -> & Hkc).
  apply elem_of_map_to_list in Hkc. rewrite compareAllFields_lookup in Hkc.
  case_decide; [|discriminate Hkc]. injection Hkc as <-.
  apply compareField_well_graded.
Qed.

(** The inner loop over the comparisons of one case. *)
Lemma add_grade_fold (cs : list FieldComparison) (t : Q) (n : nat) :
  Forall well_graded cs ->
  exists t' : Q,
    fold_left add_grade cs (Fin t, n)
    = (Fin t', (n + length (grades_of cs))%nat)
    /\ t' == t + Qsum (map grade_value (grades_of cs)).
Proof.
  intros H. revert t n.
  induction H as [|c cs Hc _ IH]; intros t n; cbn [fold_left].
  - exists t. split; [cbn; now rewrite Nat.add_0_r|]. cbn. ring.
  - destruct Hc as [[Hm Hg]|(b & q & Hm & Hg)].
    + unfold add_grade at 2. rewrite Hg.
      destruct (IH t n) as (t' & Ht' & Hq).
      exists t'. unfold grades_of in *. cbn [flat_map]. rewrite Hm.
      cbn [app]. now split.
    + unfold add_grade at 2. rewrite Hg. cbn [js_add].
      destruct (IH (Qred (t + q)) (S n)) as (t' & Ht' & Hq).
      exists t'. unfold grades_of in *. cbn [flat_map]. rewrite Hm, Hg.
      cbn [app length map]. split.
      * rewrite Ht'. f_equal. lia.
      * rewrite Hq, Qred_correct. cbn [Qsum fold_right grade_value].
        fold (Qsum (map grade_value
                      (flat_map (fun c => match fc_match c, fc_grade c with
                                          | Some _, Some g => [g]
                                          | _, _ => []
                                          end) cs))).
        ring.
Qed.

(** The outer loop over the cases. *)
Lemma grade_totals_fold (rs : list EvalResult) (t : Q) (n : nat) :
  Forall (fun r => forall cmp, r_comparison r = Some cmp ->
                               Forall well_graded (values cmp)) rs ->
  exists t' : Q,
    fold_left (fun acc r =>
                 match r_comparison r with
                 | Some cmp => fold_left add_grade (values cmp) acc
                 | None => acc
                 end) rs (Fin t, n)
    = (Fin t', (n + length (non_excluded_grades rs))%nat)
    /\ t' == t + Qsum (map grade_value (non_excluded_grades rs)).
Proof.
  intros H. revert t n.
  induction H as [|r rs Hr _ IH]; intros t n; cbn [fold_left].
  - exists t. split; [cbn; now rewrite Nat.add_0_r|]. cbn. ring.
  - unfold non_excluded_grades. cbn [flat_map].
    fold (non_excluded_grades rs).
    destruct (r_comparison r) as [cmp|] eqn:Hcmp.
    + destruct (add_grade_fold (values cmp) t n (Hr cmp eq_refl))
        as (t1 & Ht1 & Hq1).
      rewrite Ht1.
      destruct (IH t1 (n + length (grades_of (values cmp)))%nat)
        as (t2 & Ht2 & Hq2).
      exists t2. split.
      * rewrite Ht2, length_app. f_equal. lia.
      * rewrite Hq2, Hq1, map_app, Qsum_app. ring.
    + destruct (IH t n) as (t' & Ht' & Hq). exists t'. now split.
Qed.

(** For a batch assembled by [runEvaluation], the average grade is the
    mean of the grades of the comparisons that are not excluded (0 when
    there is none).  Which comparisons are excluded is decided by
    [compareField]; a flight number that was not found is not. *)
Lemma avgGrade_is_mean
    (cases : list (gmap string jsval * gmap string jsval * list string)) :
  let rs := map (fun '(e, g, fl) => evaluate e g fl) cases in
  exists q : Q,
    avgGradeRaw (getSummaryStats rs) = Fin q
    /\ q == (if (0 <? length (non_excluded_grades rs))%nat
             then Qsum (map grade_value (non_excluded_grades rs))
                  / inject_Z (Z.of_nat (length (non_excluded_grades rs)))
             else 0).
Proof.
  intros rs.
  assert (Hwg : Forall (fun r => forall cmp, r_comparison r = Some cmp ->
                                   Forall well_graded (values cmp)) rs).
  { subst rs. apply Forall_forall. intros r Hr.
    apply list_elem_of_In, in_map_iff in Hr as ([[e g] fl] & <- & _).
    intros cmp Hcmp. injection Hcmp as <-. apply compareAllFields_well_graded. }
  destruct (grade_totals_fold rs 0 0 Hwg) as (t & Ht & Hq).
  unfold getSummaryStats, grade_totals. unfold zero in *. rewrite Ht.
  cbn [avgGradeRaw Nat.add].
  pose proof (js_gt_of_nat (length (non_excluded_grades rs))) as Hgt.
  unfold zero in Hgt. rewrite Hgt.
  destruct (0 <? length (non_excluded_grades rs))%nat eqn:Hn.
  - unfold of_nat in *. rewrite (js_gt_zero _) in Hgt.
    apply negb_true_iff in Hgt. rewrite (js_div_pos _ _ Hgt).
    eexists. split; [reflexivity|].
    rewrite Qred_correct, Hq. apply Qdiv_comp; [ring|reflexivity].
  - exists 0. split; reflexivity.
Qed.

End AverageGrade.

(* ===================================================================== *)
(** ** Further properties of the comparator and of the family table *)
(* ===================================================================== *)

Section ComparatorMore.

Local Open Scope string_scope.

Lemma strict_eq_sym (a b : jsval) : strict_eq a b = strict_eq b a.
Proof.
  destruct (strict_eq a b) eqn:E.
  - apply strict_eq_true in E. subst. symmetry. apply strict_eq_refl.
  - apply strict_eq_false in E. symmetry. apply strict_eq_false. congruence.
Qed.

Lemma existsb_pointwise {A} (f g : A -> bool) (l : list A) :
  (forall x, f x = g x) -> existsb f l = existsb g l.
Proof.
  intros H. induction l as [|x l IH]; [reflexivity|].
  cbn [existsb]. now rewrite H, IH.
Qed.

Lemma isSameFamily_sym (a b : jsval) : isSameFamily a b = isSameFamily b a.
Proof.
  unfold isSameFamily.
  rewrite (orb_comm (negb (truthy a))), (strict_eq_sym a b).
  destruct (negb (truthy b) || negb (truthy a)); [reflexivity|].
  destruct (strict_eq b a); [reflexivity|].
  apply existsb_pointwise. intros [family members]. apply andb_comm.
Qed.

Lemma js_abs_sub_sym (a b : jsnum) : js_abs (js_sub a b) = js_abs (js_sub b a).
Proof.
  destruct a as [x| | |], b as [y| | |]; try reflexivity.
  cbn [js_sub js_add js_neg js_abs]. f_equal. apply Qred_complete.
  assert (Hd : forall u v : Q, (Qabs (Qred (u + Qred (- v))) == Qabs (u - v))%Q).
  { intros u v. apply Qabs_wd. rewrite Qred_correct. unfold Qminus.
    apply Qplus_comp; [reflexivity|apply Qred_correct]. }
  rewrite (Hd x y), (Hd y x). now rewrite Qabs_Qminus.
Qed.

Lemma getTimeDiffMinutes_sym (a b : jsval) :
  getTimeDiffMinutes a b = getTimeDiffMinutes b a.
Proof.
  unfold getTimeDiffMinutes.
  destruct (Comparator.timeToMinutes a), (Comparator.timeToMinutes b);
    try reflexivity.
  apply js_abs_sub_sym.
Qed.

(** X1.  In every verdict of [compareField] the grade is [null] exactly
    when the match is [null], the match is [true] exactly when the grade
    is positive, and it is [false] exactly when the grade is 0.0. *)
Theorem compareField_match_and_grade (field : string) (e g : jsval) :
  (fc_match (compareField field e g) = None
   <-> fc_grade (compareField field e g) = None)
  /\ (fc_match (compareField field e g) = Some true
      <-> exists q : Q, fc_grade (compareField field e g) = Some (Fin q)
                        /\ (0 < q)%Q)
  /\ (fc_match (compareField field e g) = Some false
      <-> fc_grade (compareField field e g) = Some grade_0_0).
Proof.
  destruct (compareField_verdicts field e g) as [H|[H|[H|[H|H]]]];
    rewrite H; cbn; (split; [|split]); split; intros Hx;
    first
      [ reflexivity
      | discriminate Hx
      | destruct Hx as (q & Hq & Hpos);
        first [ discriminate Hq
              | injection Hq as <-; exfalso; revert Hpos;
                unfold Qlt, Z.lt; cbn; discriminate ]
      | eexists; split; reflexivity ].
Qed.

(** X2.  When the extracted value and the ground truth both pass the
    guard for missing values, the verdict does not depend on which of the
    two is which. *)
Theorem compareField_symmetric (field : string) (e g : jsval)
    (He : is_missing e = false) (Hg : is_missing g = false) :
  compareField field e g = compareField field g e.
Proof.
  unfold compareField. rewrite He, Hg.
  rewrite (strict_eq_sym g e), (isSameFamily_sym g e),
    (getTimeDiffMinutes_sym g e).
  reflexivity.
Qed.

Lemma compareField_symmetric_witness :
  is_missing (Str "01:30") = false /\ is_missing (Str "01:50") = false
  /\ compareField "flightTime" (Str "01:30") (Str "01:50")
     = compareField "flightTime" (Str "01:50") (Str "01:30").
Proof.
  split; [reflexivity|]. split; [reflexivity|].
  exact (compareField_symmetric "flightTime" (Str "01:30") (Str "01:50")
                                eq_refl eq_refl).
Defined.

(** What [isSameFamily] decides: both values are truthy and they are equal
    or belong to one family of the table. *)
Lemma isSameFamily_true (a b : jsval) :
  isSameFamily a b = true <->
  truthy a = true /\ truthy b = true /\ (a = b \/ same_family_values a b).
Proof.
  unfold isSameFamily. split.
  - destruct (truthy a) eqn:Ha, (truthy b) eqn:Hb; cbn [negb orb];
      try discriminate.
    destruct (strict_eq a b) eqn:Hab.
    + apply strict_eq_true in Hab. auto.
    + rewrite existsb_exists. intros ([family members] & Hin & Hboth).
      apply andb_true_iff in Hboth as [H1 H2].
      destruct (includes_only_strings _ _ H1) as [s ->].
      destruct (includes_only_strings _ _ H2) as [t ->].
      repeat split. right. exists s, t. repeat split.
      exists family, members. rewrite includes_Str in H1, H2. auto.
  - intros (Ha & Hb & Hor). rewrite Ha, Hb. cbn [negb orb].
    destruct (strict_eq a b) eqn:Hab; [reflexivity|].
    destruct Hor as [->|(s & t & -> & -> & family & members & Hin & Hs & Ht)].
    + now rewrite strict_eq_refl in Hab.
    + rewrite existsb_exists. exists (family, members). split; [assumption|].
      apply andb_true_iff. split; now apply includes_Str.
Qed.

(** No name is listed by two families. *)
Lemma family_of_member_unique (fm1 fm2 : string * list string) (t : string) :
  In fm1 AIRCRAFT_FAMILIES -> In fm2 AIRCRAFT_FAMILIES ->
  In t (snd fm1) -> In t (snd fm2) -> fm1 = fm2.
Proof.
  assert (Hall :
    forallb (fun fm1 : string * list string =>
      forallb (fun fm2 : string * list string =>
        forallb (fun t => negb (existsb (String.eqb t) (snd fm2))
                          || bool_decide (fm1 = fm2)) (snd fm1))
        AIRCRAFT_FAMILIES) AIRCRAFT_FAMILIES = true)
    by (vm_compute; reflexivity).
  intros H1 H2 Ht1 Ht2. rewrite forallb_forall in Hall.
  specialize (Hall _ H1). rewrite forallb_forall in Hall.
  specialize (Hall _ H2). rewrite forallb_forall in Hall.
  specialize (Hall _ Ht1). apply orb_true_iff in Hall as [Hall|Hall].
  - apply negb_true_iff in Hall.
    assert (Hex : existsb (String.eqb t) (snd fm2) = true).
    { apply existsb_exists. exists t. split; [assumption|apply String.eqb_refl]. }
    congruence.
  - now apply bool_decide_eq_true in Hall.
Qed.




(** The family [getAircraftFamily] finds for a member of the table. *)
Lemma getAircraftFamily_member (family : string) (members : list string)
    (s : string) :
  In (family, members) AIRCRAFT_FAMILIES -> In s members ->
  getAircraftFamily (Str s) = Str family.
Proof.
  intros Hin Hs. unfold getAircraftFamily.
  assert (Ht : truthy (Str s) = true).
  { simpl. apply negb_true_iff, String.eqb_neq.
    eapply family_members_nonempty; eauto. }
  rewrite Ht. cbn [negb].
  destruct (List.find _ AIRCRAFT_FAMILIES) as [[f' m']|] eqn:Hfind.
  - apply find_some in Hfind as [Hin' Hincl].
    apply includes_Str in Hincl.
    pose proof (family_of_member_unique (f', m') (family, members) s
                  Hin' Hin Hincl Hs) as Heq.
    now injection Heq as -> ->.
  - pose proof (find_none _ _ Hfind _ Hin) as Hno. cbn in Hno.
    apply includes_Str in Hs. congruence.
Qed.

(** X4.  Two values that [isSameFamily] accepts have the same
    [getAircraftFamily]. *)
Theorem isSameFamily_same_getAircraftFamily (a b : jsval)
    (Hab : isSameFamily a b = true) :
  getAircraftFamily a = getAircraftFamily b.
Proof.
  apply isSameFamily_true in Hab as (Ha & Hb & [->|Hfam]); [reflexivity|].
  destruct Hfam as (s & t & -> & -> & family & members & Hin & Hs & Ht).
  rewrite (getAircraftFamily_member _ _ _ Hin Hs),
    (getAircraftFamily_member _ _ _ Hin Ht).
  reflexivity.
Qed.

Lemma isSameFamily_same_getAircraftFamily_witness :
  isSameFamily (Str "Boeing 737MAX") (Str "Boeing 717") = true
  /\ getAircraftFamily (Str "Boeing 737MAX")
     = getAircraftFamily (Str "Boeing 717").
Proof.
  split; [reflexivity|].
  exact (isSameFamily_same_getAircraftFamily (Str "Boeing 737MAX")
                                             (Str "Boeing 717") eq_refl).
Defined.

(** The converse fails: ["Boeing 737"] is the name of a family but not a
    member of it. *)
Example getAircraftFamily_not_injective_on_families :
  getAircraftFamily (Str "Boeing 737") = getAircraftFamily (Str "Boeing 737NG")
  /\ isSameFamily (Str "Boeing 737") (Str "Boeing 737NG") = false.
Proof. split; reflexivity. Qed.

(** X5.  [getAircraftSimilarity] is symmetric, and its value is one of
    0.0, 0.3, 0.8 and 1.0. *)
Theorem getAircraftSimilarity_symmetric (a b : jsval) :
  getAircraftSimilarity a b = getAircraftSimilarity b a
  /\ (getAircraftSimilarity a b = Fin 0.0
      \/ getAircraftSimilarity a b = Fin 0.3
      \/ getAircraftSimilarity a b = Fin 0.8
      \/ getAircraftSimilarity a b = Fin 1.0).
Proof.
  unfold getAircraftSimilarity.
  rewrite (orb_comm (negb (truthy b))), (strict_eq_sym b a),
    (isSameFamily_sym b a).
  destruct (negb (truthy a) || negb (truthy b)); [tauto|].
  destruct (strict_eq a b); [tauto|].
  destruct (isSameFamily a b); [tauto|].
  destruct a as [| |s], b as [| |t]; try tauto.
  rewrite (String.eqb_sym (getManufacturer t)).
  destruct (String.eqb (getManufacturer s) (getManufacturer t)); tauto.
Qed.

(** X6.  For an extracted name that passes the guard, the grade of the
    aircraft comparison is the similarity of the two names when that is
    0.8 or 1.0, and 0.0 otherwise: the comparator gives no credit for a
    shared manufacturer. *)
Theorem aircraft_grade_from_similarity (e g : jsval)
    (He : is_missing e = false) :
  fc_grade (compareField "aircraftName" e g)
  = Some (if js_le (Fin 0.8) (getAircraftSimilarity e g)
          then getAircraftSimilarity e g else Fin 0.0).
Proof.
  rewrite (compareField_aircraft _ _ He). unfold getAircraftSimilarity.
  rewrite (is_missing_truthy _ He). cbn [negb orb].
  destruct (strict_eq e g) eqn:Heg.
  - apply strict_eq_true in Heg. subst g.
    rewrite (is_missing_truthy _ He). reflexivity.
  - destruct (truthy g) eqn:Hg; cbn [negb].
    + destruct (isSameFamily e g); [reflexivity|].
      destruct e as [| |s], g as [| |t]; try reflexivity.
      destruct (String.eqb (getManufacturer s) (getManufacturer t));
        reflexivity.
    + assert (Hs : isSameFamily e g = false).
      { unfold isSameFamily. rewrite Hg. cbn [negb]. now rewrite orb_true_r. }
      now rewrite Hs.
Qed.

Lemma aircraft_grade_from_similarity_witness :
  is_missing (Str "Boeing 737NG") = false
  /\ getAircraftSimilarity (Str "Boeing 737NG") (Str "Boeing 777") = Fin 0.3
  /\ fc_grade (compareField "aircraftName" (Str "Boeing 737NG") (Str "Boeing 777"))
     = Some (Fin 0.0).
Proof.
  split; [reflexivity|]. split; [reflexivity|].
  exact (aircraft_grade_from_similarity (Str "Boeing 737NG") (Str "Boeing 777")
                                        eq_refl).
Defined.

End ComparatorMore.

(* ===================================================================== *)
(** ** Review flags *)
(* ===================================================================== *)

Section ReviewFlags.

Local Open Scope string_scope.
Local Open Scope Z_scope.

(** The flags of a case, flag by flag. *)
Lemma flagForReview_parts (e tc : gmap string jsval)
    (cmp : gmap string FieldComparison) :
  flagForReview e tc cmp
  = ((if aircraft_missing_raised e then ["aircraft_missing"] else [])
     ++ (if aircraft_mismatch_raised e cmp then ["aircraft_mismatch"] else [])
     ++ (if duration_error_raised e tc then ["duration_error"] else [])
     ++ (if low_quality_raised e then ["low_quality"] else []))%list.
Proof.
  unfold flagForReview, aircraft_missing_raised, aircraft_mismatch_raised,
    duration_error_raised, low_quality_raised.
  destruct (cmp !! "aircraftName") as [c|];
    [destruct (match fc_grade c with
               | Some g => js_num_eq g (Fin 0.0)
               | None => false
               end)|];
    destruct (truthy (get Undefined e "aircraftName")),
      (strict_eq (get Undefined e "aircraftName") (Str "null")),
      (truthy (get Undefined e "flightTime")),
      (truthy (get Undefined tc "duration")),
      (js_gt (getTimeDiffMinutes (get Undefined e "flightTime")
                                 (get Undefined tc "duration")) (of_Z 30)),
      (3 <=? length (List.filter is_null_like (values e)))%nat;
    reflexivity.
Qed.

Lemma flag_elem (e tc : gmap string jsval) (cmp : gmap string FieldComparison)
    (name : string) :
  In name (flagForReview e tc cmp) <->
  (name = "aircraft_missing" /\ aircraft_missing_raised e = true)
  \/ (name = "aircraft_mismatch" /\ aircraft_mismatch_raised e cmp = true)
  \/ (name = "duration_error" /\ duration_error_raised e tc = true)
  \/ (name = "low_quality" /\ low_quality_raised e = true).
Proof.
  rewrite flagForReview_parts.
  destruct (aircraft_missing_raised e), (aircraft_mismatch_raised e cmp),
    (duration_error_raised e tc), (low_quality_raised e);
    cbn [app In]; split; intros H;
    repeat match type of H with
           | _ \/ _ => destruct H as [H|H]
           | _ /\ _ => destruct H as [? H]
           | False => destruct H
           end;
    subst; try discriminate; auto 10.
Qed.

(** X7.  The flags of a case are a sublist of [aircraft_missing],
    [aircraft_mismatch], [duration_error], [low_quality]: at most four,
    each at most once, always in this order. *)
Theorem flagForReview_sublist (e tc : gmap string jsval)
    (cmp : gmap string FieldComparison) :
  sublist (flagForReview e tc cmp) all_flags
  /\ NoDup (flagForReview e tc cmp)
  /\ (length (flagForReview e tc cmp) <= 4)%nat.
Proof.
  assert (Hsub : sublist (flagForReview e tc cmp) all_flags).
  { rewrite flagForReview_parts. unfold all_flags.
    destruct (aircraft_missing_raised e), (aircraft_mismatch_raised e cmp),
      (duration_error_raised e tc), (low_quality_raised e); cbn [app];
      repeat first [ apply sublist_nil | apply sublist_skip | apply sublist_cons ]. }
  split; [exact Hsub|]. split.
  - refine (sublist_NoDup _ _ _ Hsub).
    unfold all_flags. repeat constructor; intros H;
      apply list_elem_of_In in H; cbn in H;
      repeat match type of H with _ \/ _ => destruct H as [H|H] end;
      try discriminate H; exact H.
  - apply sublist_length in Hsub. exact Hsub.
Qed.

Lemma js_gt_30_not_le (d : jsnum) :
  js_gt d (of_Z 30) = true ->
  js_le d (of_Z 15) = false /\ js_le d (of_Z 30) = false.
Proof.
  destruct d as [q| | |]; cbn [js_gt js_le of_Z]; try discriminate;
    [|now split].
  intros H. apply negb_true_iff in H.
  split; [|exact H].
  destruct (Qle_bool q (inject_Z 15)) eqn:H15; [|reflexivity].
  apply Qle_bool_iff in H15.
  assert (Hle : Qle_bool q (inject_Z 30) = true).
  { apply Qle_bool_iff. eapply Qle_trans; [exact H15|]. discriminate. }
  congruence.
Qed.

(** X8.  Whenever [duration_error] is raised, [compareField] gives the
    extracted flight time no credit against the duration of the test
    case: the flag is never raised for a duration the comparator would
    accept. *)
Theorem duration_error_implies_wrong (e tc : gmap string jsval)
    (cmp : gmap string FieldComparison)
    (Hflag : In "duration_error" (flagForReview e tc cmp)) :
  compareField "flightTime" (get Undefined e "flightTime")
               (get Undefined tc "duration")
  = mkFC (Some false) (Some grade_0_0).
Proof.
  apply flag_elem in Hflag.
  destruct Hflag as [[H _]|[[H _]|[[_ H]|[H _]]]]; try discriminate H.
  unfold duration_error_raised in H.
  apply andb_true_iff in H as [_ Hgt].
  destruct (is_missing (get Undefined e "flightTime")) eqn:Hm.
  - now apply compareField_missing.
  - rewrite (compareField_flightTime _ _ Hm).
    destruct (js_gt_30_not_le _ Hgt) as [H15 H30]. now rewrite H15, H30.
Qed.

Lemma duration_error_implies_wrong_witness :
  In "duration_error"
     (flagForReview (<["flightTime" := Str "03:00"]> scenario_extracted)
                    (<["duration" := Str "01:30"]> ∅) ∅)
  /\ compareField "flightTime" (Str "03:00") (Str "01:30")
     = mkFC (Some false) (Some grade_0_0).
Proof.
  assert (H : In "duration_error"
                 (flagForReview (<["flightTime" := Str "03:00"]> scenario_extracted)
                                (<["duration" := Str "01:30"]> ∅) ∅)).
  { vm_compute. auto. }
  split; [exact H|].
  exact (duration_error_implies_wrong _ _ _ H).
Defined.

(** The converse fails on a flight time without a colon: no credit and no
    flag. *)
Example no_credit_without_duration_error :
  compareField "flightTime" (Str "90") (Str "01:30") = wrong
  /\ ~ In "duration_error"
         (flagForReview (<["flightTime" := Str "90"]> ∅)
                        (<["duration" := Str "01:30"]> ∅) ∅).
Proof.
  split; [reflexivity|]. vm_compute. intros [H|[]]. discriminate H.
Qed.

(** X9.  For a flight time and a duration that are both written [HH:MM],
    [duration_error] is raised exactly when they differ by more than 30
    minutes, which is exactly when [compareField] gives no credit: the
    flag and the comparator use the same cut-off. *)
Theorem duration_error_iff_wrong (e tc : gmap string jsval)
    (cmp : gmap string FieldComparison) (ft dur : string)
    (Hft : e !! "flightTime" = Some (Str ft))
    (Hdur : tc !! "duration" = Some (Str dur))
    (Hhft : is_hhmm ft = true) (Hhdur : is_hhmm dur = true) :
  (In "duration_error" (flagForReview e tc cmp)
   <-> 30 < Z.abs (hhmm_minutes ft - hhmm_minutes dur))
  /\ (compareField "flightTime" (Str ft) (Str dur)
      = mkFC (Some false) (Some grade_0_0)
      <-> 30 < Z.abs (hhmm_minutes ft - hhmm_minutes dur)).
Proof.
  pose proof (is_hhmm_not_missing _ Hhft) as Hmf.
  pose proof (is_hhmm_not_missing _ Hhdur) as Hmd.
  split.
  - rewrite flag_elem. unfold duration_error_raised, get.
    rewrite Hft, Hdur. cbn [default from_option id].
    rewrite (is_missing_truthy _ Hmf), (is_missing_truthy _ Hmd).
    cbn [andb]. unfold getTimeDiffMinutes.
    rewrite (timeToMinutes_hhmm _ Hhft), (timeToMinutes_hhmm _ Hhdur).
    unfold of_Z at 1 2.
    assert (Hgt : js_gt (js_abs (js_sub (Fin (inject_Z (hhmm_minutes ft)))
                                        (Fin (inject_Z (hhmm_minutes dur)))))
                        (of_Z 30)
                  = negb (Z.abs (hhmm_minutes ft - hhmm_minutes dur) <=? 30)).
    { pose proof (js_le_abs_sub (inject_Z (hhmm_minutes ft))
                                (inject_Z (hhmm_minutes dur)) (inject_Z 30)) as Hle.
      rewrite Qle_bool_abs_int in Hle.
      cbn [js_sub js_add js_neg js_abs js_le js_gt of_Z] in *.
      now rewrite Hle. }
    rewrite Hgt. split.
    + intros [[H _]|[[H _]|[[_ H]|[H _]]]]; try discriminate H.
      apply negb_true_iff, Z.leb_gt in H. exact H.
    + intros H. right. right. left. split; [reflexivity|].
      apply negb_true_iff, Z.leb_gt. exact H.
  - rewrite (compareField_flightTime_finite _ _ _ _ Hmf
               (timeToMinutes_hhmm _ Hhft) (timeToMinutes_hhmm _ Hhdur)).
    unfold duration_tier.
    destruct (Z.abs (hhmm_minutes ft - hhmm_minutes dur) <=? 15) eqn:H15;
      destruct (Z.abs (hhmm_minutes ft - hhmm_minutes dur) <=? 30) eqn:H30;
      split; intros H; try discriminate H; try reflexivity;
      try (apply Z.leb_le in H15); try (apply Z.leb_le in H30);
      try (apply Z.leb_gt in H15); try (apply Z.leb_gt in H30); lia.
Qed.

Lemma duration_error_iff_wrong_witness :
  In "duration_error"
     (flagForReview (<["flightTime" := Str "02:01"]> ∅)
                    (<["duration" := Str "01:30"]> ∅) ∅)
  /\ compareField "flightTime" (Str "02:01") (Str "01:30")
     = mkFC (Some false) (Some grade_0_0).
Proof.
  destruct (duration_error_iff_wrong
              (<["flightTime" := Str "02:01"]> ∅)
              (<["duration" := Str "01:30"]> ∅) ∅ "02:01" "01:30"
              (lookup_insert_eq _ _ _) (lookup_insert_eq _ _ _)
              eq_refl eq_refl) as [Hflag Hcmp].
  split; [apply Hflag|apply Hcmp]; vm_compute; reflexivity.
Defined.

(** X10.  In a case whose comparison was built by [compareAllFields],
    [aircraft_mismatch] is raised exactly when the extracted aircraft name
    is truthy and its comparison is not a match; the literal ['null'] is
    truthy and is flagged as a mismatch. *)
Theorem aircraft_mismatch_iff_no_match (e tc gt : gmap string jsval) :
  In "aircraft_mismatch" (flagForReview e tc (compareAllFields e gt))
  <-> truthy (get Undefined e "aircraftName") = true
      /\ fc_match (compareField "aircraftName"
                     (get Undefined e "aircraftName")
                     (get Undefined gt "aircraftName")) = Some false.
Proof.
  rewrite flag_elem. unfold aircraft_mismatch_raised.
  rewrite compareAllFields_lookup.
  destruct (decide ("aircraftName" ∈ all_fields)) as [_|Hn].
  2:{ exfalso. apply Hn. apply list_elem_of_In. cbn. tauto. }
  set (c := compareField "aircraftName" (get Undefined e "aircraftName")
                         (get Undefined gt "aircraftName")).
  assert (Hg : match fc_grade c with
               | Some g => js_num_eq g (Fin 0.0)
               | None => false
               end = true <-> fc_match c = Some false).
  { subst c.
    destruct (compareField_verdicts "aircraftName"
                (get Undefined e "aircraftName")
                (get Undefined gt "aircraftName")) as [H|[H|[H|[H|H]]]];
      rewrite H; cbn; split; intros Hx; try discriminate Hx; reflexivity. }
  split.
  - intros [[H _]|[[_ H]|[[H _]|[H _]]]]; try discriminate H.
    apply andb_true_iff in H as [H1 H2]. split; [exact H2|now apply Hg].
  - intros [H1 H2]. right. left. split; [reflexivity|].
    apply andb_true_iff. split; [now apply Hg|exact H1].
Qed.

End ReviewFlags.

(* ===================================================================== *)
(** ** Cases assembled by the evaluator *)
(* ===================================================================== *)

Section Pipeline.

Local Open Scope string_scope.

(** X11.  The comparison object has exactly seven entries, one for each
    field name, each the verdict of [compareField] on the two values of
    that name. *)
Theorem compareAllFields_seven_entries (e g : gmap string jsval) :
  size (compareAllFields e g) = 7%nat
  /\ forall (k : string) (c : FieldComparison),
       compareAllFields e g !! k = Some c
       <-> In k all_fields
           /\ c = compareField k (get Undefined e k) (get Undefined g k).
Proof.
  assert (Hlk : forall (k : string) (c : FieldComparison),
             compareAllFields e g !! k = Some c
             <-> In k all_fields
                 /\ c = compareField k (get Undefined e k) (get Undefined g k)).
  { intros k c. rewrite compareAllFields_lookup.
    destruct (decide (k ∈ all_fields)) as [Hin|Hin].
    - apply list_elem_of_In in Hin. split.
      + intros H. injection H as <-. now split.
      + intros [_ ->]. reflexivity.
    - split; [discriminate|]. intros [Hk _]. apply list_elem_of_In in Hk.
      contradiction. }
  split; [|exact Hlk].
  assert (Hdom : dom (compareAllFields e g) = list_to_set all_fields).
  { apply set_eq. intros k. rewrite elem_of_dom, elem_of_list_to_set.
    rewrite compareAllFields_lookup. case_decide as Hin.
    - split; [intros _; exact Hin|intros _; eexists; reflexivity].
    - split; [intros [c Hc]; discriminate Hc|intros; contradiction]. }
  rewrite <- size_dom, Hdom, size_list_to_set; [reflexivity|].
  unfold all_fields. repeat constructor; intros H;
    apply list_elem_of_In in H; cbn in H;
    repeat match type of H with _ \/ _ => destruct H as [H|H] end;
    try discriminate H; exact H.
Qed.

Lemma groundTruthData_no_flightTime (tc : gmap string jsval) :
  groundTruthData tc !! "flightTime" = None.
Proof.
  unfold groundTruthData.
  repeat (rewrite lookup_insert_ne by discriminate). apply lookup_empty.
Qed.

Lemma compareField_flightTime_undefined (x : jsval) :
  compareField "flightTime" x Undefined = wrong.
Proof.
  destruct (is_missing x) eqn:Hm; [now apply compareField_missing|].
  rewrite (compareField_flightTime _ _ Hm). unfold getTimeDiffMinutes.
  destruct (Comparator.timeToMinutes x); reflexivity.
Qed.

Lemma runCase_flightTime (tc e : gmap string jsval) :
  compareAllFields e (groundTruthData tc) !! "flightTime" = Some wrong.
Proof.
  rewrite compareAllFields_lookup.
  destruct (decide ("flightTime" ∈ all_fields)) as [_|Hn].
  2:{ exfalso. apply Hn, list_elem_of_In. cbn. tauto. }
  unfold get at 2. rewrite groundTruthData_no_flightTime. cbn [default].
  now rewrite compareField_flightTime_undefined.
Qed.

(** X12.  In every result [runEvaluation] assembles, the flight time is
    compared with [undefined]: the ground truth object it builds holds the
    duration under the key [duration], and [compareAllFields] reads the
    key [flightTime].  The comparison of the flight time is therefore no
    match with grade 0.0, whatever was extracted and whatever the test
    case. *)
Theorem runCase_flightTime_never_matches (tc e : gmap string jsval) :
  groundTruthData tc !! "flightTime" = None
  /\ exists cmp : gmap string FieldComparison,
       r_comparison (runCase tc e) = Some cmp
       /\ cmp !! "flightTime" = Some (mkFC (Some false) (Some grade_0_0)).
Proof.
  split; [apply groundTruthData_no_flightTime|].
  eexists. split; [reflexivity|]. apply runCase_flightTime.
Qed.

End Pipeline.

(* ===================================================================== *)
(** ** Bounds of the metrics on assembled batches *)
(* ===================================================================== *)

Section MetricsBounds.

Local Open Scope Q_scope.

Lemma count_le {A} (p q : A -> bool) (l : list A) :
  (forall x, In x l -> p x = true -> q x = true) ->
  (length (List.filter p l) <= length (List.filter q l))%nat.
Proof.
  induction l as [|x l IH]; intros H; [reflexivity|].
  cbn [List.filter].
  assert (IH' : (length (List.filter p l) <= length (List.filter q l))%nat).
  { apply IH. intros y Hy. apply H. now right. }
  destruct (p x) eqn:Hp.
  - rewrite (H x (or_introl eq_refl) Hp). cbn [length]. lia.
  - destruct (q x); cbn [length]; lia.
Qed.

Lemma count_le_length {A} (p : A -> bool) (l : list A) :
  (length (List.filter p l) <= length l)%nat.
Proof.
  induction l as [|x l IH]; [reflexivity|].
  cbn [List.filter]. destruct (p x); cbn [length]; lia.
Qed.

Lemma count_none {A} (p : A -> bool) (l : list A) :
  (forall x, In x l -> p x = false) -> length (List.filter p l) = 0%nat.
Proof.
  induction l as [|x l IH]; intros H; [reflexivity|].
  cbn [List.filter]. rewrite (H x (or_introl eq_refl)).
  apply IH. intros y Hy. apply H. now right.
Qed.

(** A value that passes the guard of [compareField] counts as extracted. *)
Lemma not_missing_is_extracted (v : jsval) :
  is_missing v = false -> is_extracted v = true.
Proof.
  intros H. apply is_missing_false in H as (s & -> & _ & Hnull).
  unfold is_extracted. cbn. apply String.eqb_neq in Hnull.
  now rewrite Hnull.
Qed.

Lemma match_is_true_not_missing field e g :
  match_is_true (compareField field e g) = true -> is_missing e = false.
Proof.
  destruct (is_missing e) eqn:Hm; [|reflexivity].
  now rewrite (compareField_missing _ _ _ Hm).
Qed.

(** On a batch built with [evaluate], a field counted as correct is
    counted as extracted. *)
Lemma evaluated_counts
    (cases : list (gmap string jsval * gmap string jsval * list string))
    (field : string) :
  (fm_correct (calculateFieldMetrics (evaluated cases) field)
   <= fm_extracted (calculateFieldMetrics (evaluated cases) field))%nat
  /\ (fm_extracted (calculateFieldMetrics (evaluated cases) field)
      <= fm_total (calculateFieldMetrics (evaluated cases) field))%nat.
Proof.
  unfold calculateFieldMetrics. cbn [fm_correct fm_extracted fm_total].
  split; [|apply count_le_length].
  apply count_le. intros r Hr.
  unfold evaluated in Hr. apply in_map_iff in Hr as ([[e g] fl] & <- & _).
  cbn [evaluate r_comparison r_extracted].
  rewrite compareAllFields_lookup. case_decide; [|discriminate].
  intros Hm. apply not_missing_is_extracted.
  now apply match_is_true_not_missing in Hm.
Qed.

Lemma inject_nat_le (a b : nat) :
  (a <= b)%nat -> inject_Z (Z.of_nat a) <= inject_Z (Z.of_nat b).
Proof. intros H. rewrite <- Zle_Qle. lia. Qed.

(** Precision, recall and f1 of counts [c <= e <= n]: recall is at most
    precision and all three lie between 0 and 1. *)
Lemma ratio_chain (C E N p r f : Q) :
  0 <= C -> C <= E -> E <= N -> 0 < E ->
  p == C / E -> r == C / N ->
  f == (if Qle_bool (p + r) 0 then 0 else 2 * (p * r) / (p + r)) ->
  0 <= r /\ r <= p /\ p <= 1 /\ 0 <= f /\ f <= 1.
Proof.
  intros HC HCE HEN HE Hp Hr Hf.
  assert (HN : 0 < N) by lra.
  assert (HpE : p * E == C) by (rewrite Hp; field; lra).
  assert (HrN : r * N == C) by (rewrite Hr; field; lra).
  assert (Hp0 : 0 <= p).
  { rewrite Hp. apply Qle_shift_div_l; [assumption|]. lra. }
  assert (Hr0 : 0 <= r).
  { rewrite Hr. apply Qle_shift_div_l; [assumption|]. lra. }
  assert (Hp1 : p <= 1).
  { rewrite Hp. apply Qle_shift_div_r; [assumption|]. lra. }
  assert (Hrp : r <= p).
  { destruct (Qlt_le_dec p r) as [Hlt|]; [|assumption]. exfalso.
    assert (p * E < r * N) by (apply Qle_lt_trans with (p * N); nra).
    lra. }
  destruct (Qle_bool (p + r) 0) eqn:Hs.
  - apply Qle_bool_iff in Hs. repeat split; lra.
  - assert (Hpos : 0 < p + r).
    { destruct (Qlt_le_dec 0 (p + r)); [assumption|].
      assert (Qle_bool (p + r) 0 = true) by (now apply Qle_bool_iff).
      congruence. }
    assert (Hfm : f * (p + r) == 2 * (p * r)) by (rewrite Hf; field; lra).
    repeat split; try assumption.
    + destruct (Qlt_le_dec f 0) as [Hlt|]; [|assumption]. exfalso. nra.
    + destruct (Qlt_le_dec 1 f) as [Hlt|]; [|assumption]. exfalso. nra.
Qed.

Lemma evaluated_metrics_chain
    (cases : list (gmap string jsval * gmap string jsval * list string))
    (field : string) :
  0 <= recall_of (evaluated cases) field
  /\ recall_of (evaluated cases) field <= precision_of (evaluated cases) field
  /\ precision_of (evaluated cases) field <= 1
  /\ 0 <= f1_of (evaluated cases) field
  /\ f1_of (evaluated cases) field <= 1.
Proof.
  destruct (evaluated_counts cases field) as [Hce Hen].
  destruct (calculateFieldMetrics_formulas (evaluated cases) field)
    as (p & r & f & Hp & Hr & Hf & Hpq & Hrq & Hfq).
  unfold recall_of, precision_of, f1_of. rewrite Hp, Hr, Hf.
  cbn [grade_value].
  set (m := calculateFieldMetrics (evaluated cases) field) in *.
  destruct (0 <? fm_extracted m)%nat eqn:He.
  - apply Nat.ltb_lt in He.
    assert (Hn : (0 <? fm_total m)%nat = true) by (apply Nat.ltb_lt; lia).
    rewrite Hn in Hrq.
    apply (ratio_chain (inject_Z (Z.of_nat (fm_correct m)))
                       (inject_Z (Z.of_nat (fm_extracted m)))
                       (inject_Z (Z.of_nat (fm_total m)))); try assumption.
    + change 0 with (inject_Z (Z.of_nat 0)). apply inject_nat_le. lia.
    + now apply inject_nat_le.
    + now apply inject_nat_le.
    + change 0 with (inject_Z 0). rewrite <- Zlt_Qlt. lia.
  - apply Nat.ltb_ge in He.
    assert (Hc0 : fm_correct m = 0%nat) by lia.
    assert (Hr0 : r == 0).
    { rewrite Hrq. destruct (0 <? fm_total m)%nat; [|reflexivity].
      rewrite Hc0. reflexivity. }
    assert (Hs : Qle_bool (p + r) 0 = true).
    { apply Qle_bool_iff. rewrite Hpq, Hr0. discriminate. }
    rewrite Hs in Hfq. repeat split; lra.
Qed.

(** X13.  On a batch whose comparisons were built by [compareAllFields],
    for every field: a case counted as correct is counted as extracted, so
    correct <= extracted <= total; the three raw metrics are finite;
    0 <= recall <= precision <= 1 and 0 <= f1 <= 1.  (How f1 lies between
    recall and precision is left out: it is their harmonic mean, which
    rounding can put one unit in the last place above the precision.) *)
Theorem evaluated_metrics_bounds
    (cases : list (gmap string jsval * gmap string jsval * list string))
    (field : string) :
  (fm_correct (calculateFieldMetrics (evaluated cases) field)
   <= fm_extracted (calculateFieldMetrics (evaluated cases) field))%nat
  /\ (fm_extracted (calculateFieldMetrics (evaluated cases) field)
      <= fm_total (calculateFieldMetrics (evaluated cases) field))%nat
  /\ fm_precisionRaw (calculateFieldMetrics (evaluated cases) field)
     = Fin (precision_of (evaluated cases) field)
  /\ fm_recallRaw (calculateFieldMetrics (evaluated cases) field)
     = Fin (recall_of (evaluated cases) field)
  /\ fm_f1Raw (calculateFieldMetrics (evaluated cases) field)
     = Fin (f1_of (evaluated cases) field)
  /\ 0 <= recall_of (evaluated cases) field
  /\ recall_of (evaluated cases) field <= precision_of (evaluated cases) field
  /\ precision_of (evaluated cases) field <= 1
  /\ 0 <= f1_of (evaluated cases) field
  /\ f1_of (evaluated cases) field <= 1.
Proof.
  destruct (evaluated_counts cases field) as [Hce Hen].
  destruct (calculateFieldMetrics_formulas (evaluated cases) field)
    as (p & r & f & Hp & Hr & Hf & _).
  pose proof (evaluated_metrics_chain cases field) as Hchain.
  unfold precision_of, recall_of, f1_of in *. rewrite Hp, Hr, Hf in *.
  cbn [grade_value] in *. tauto.
Qed.

(** The overall score of a batch as a rational. *)
Lemma overallScore_formula (rs : list EvalResult) :
  exists q : Q,
    overallScore rs = Fin q
    /\ q == (0.5 * f1_of rs "airlineCode"
             + 0.5 * f1_of rs "departureAirportCode"
             + 0.5 * f1_of rs "arrivalAirportCode"
             + 0.5 * f1_of rs "flightDate"
             + 1.5 * f1_of rs "aircraftName"
             + 1.5 * f1_of rs "flightTime") / 5.
Proof.
  unfold overallScore, calculateAllMetrics.
  destruct (weighted_sums_scored rs) as (s & Hs & Hsq). rewrite Hs.
  cbn [weightedF1Raw].
  change (js_gt (Fin 5) zero) with true. cbn iota.
  rewrite (js_div_pos s 5 eq_refl).
  eexists. split; [reflexivity|].
  rewrite Qred_correct, Hsq. reflexivity.
Qed.

(** X14.  On a batch whose comparisons were built by [compareAllFields]
    the overall weighted F1 is a number between 0 and 1. *)
Theorem evaluated_overallScore_bounds
    (cases : list (gmap string jsval * gmap string jsval * list string)) :
  exists q : Q,
    overallScore (evaluated cases) = Fin q /\ 0 <= q /\ q <= 1.
Proof.
  destruct (overallScore_formula (evaluated cases)) as (q & Hq & Hf).
  exists q. split; [exact Hq|].
  pose proof (evaluated_metrics_chain cases "airlineCode") as H1.
  pose proof (evaluated_metrics_chain cases "departureAirportCode") as H2.
  pose proof (evaluated_metrics_chain cases "arrivalAirportCode") as H3.
  pose proof (evaluated_metrics_chain cases "flightDate") as H4.
  pose proof (evaluated_metrics_chain cases "aircraftName") as H5.
  pose proof (evaluated_metrics_chain cases "flightTime") as H6.
  rewrite Hf. split.
  - apply Qle_shift_div_l; lra.
  - apply Qle_shift_div_r; lra.
Qed.

Lemma runBatch_evaluated (cases : list (gmap string jsval * gmap string jsval)) :
  runBatch cases
  = evaluated (map (fun '(tc, e) =>
                      (e, groundTruthData tc,
                       flagForReview e tc
                         (compareAllFields e (groundTruthData tc)))) cases).
Proof.
  unfold runBatch, evaluated. rewrite map_map.
  apply map_ext. now intros [tc e].
Qed.

Lemma runBatch_flightTime_correct
    (cases : list (gmap string jsval * gmap string jsval)) :
  fm_correct (calculateFieldMetrics (runBatch cases) "flightTime") = 0%nat.
Proof.
  unfold calculateFieldMetrics. cbn [fm_correct].
  apply count_none. intros r Hr.
  unfold runBatch in Hr. apply in_map_iff in Hr as ([tc e] & <- & _).
  cbn [runCase r_comparison]. now rewrite runCase_flightTime.
Qed.

Lemma runBatch_flightTime_f1
    (cases : list (gmap string jsval * gmap string jsval)) :
  f1_of (runBatch cases) "flightTime" == 0.
Proof.
  destruct (calculateFieldMetrics_formulas (runBatch cases) "flightTime")
    as (p & r & f & Hp & Hr & Hf & Hpq & Hrq & Hfq).
  unfold f1_of. rewrite Hf.
  rewrite runBatch_flightTime_correct in Hpq, Hrq.
  assert (Hp0 : p == 0).
  { rewrite Hpq.
    destruct (0 <? fm_extracted
                     (calculateFieldMetrics (runBatch cases) "flightTime"))%nat;
      reflexivity. }
  assert (Hr0 : r == 0).
  { rewrite Hrq.
    destruct (0 <? fm_total
                     (calculateFieldMetrics (runBatch cases) "flightTime"))%nat;
      reflexivity. }
  assert (Hs : Qle_bool (p + r) 0 = true).
  { apply Qle_bool_iff. rewrite Hp0, Hr0. discriminate. }
  now rewrite Hs in Hfq.
Qed.

(** X15.  On every batch [runEvaluation] assembles, no flight time is
    counted as correct, the f1 of the flight time is 0, and the overall
    weighted F1, in which the flight time weighs 1.5 of 5, is at most
    0.7. *)
Theorem runBatch_overallScore_at_most_0_7
    (cases : list (gmap string jsval * gmap string jsval)) :
  fm_correct (calculateFieldMetrics (runBatch cases) "flightTime") = 0%nat
  /\ fm_f1Raw (calculateFieldMetrics (runBatch cases) "flightTime")
     = Fin (f1_of (runBatch cases) "flightTime")
  /\ f1_of (runBatch cases) "flightTime" == 0
  /\ exists q : Q,
       overallScore (runBatch cases) = Fin q /\ 0 <= q /\ q <= 0.7.
Proof.
  split; [apply runBatch_flightTime_correct|].
  split; [apply f1Raw_f1_of|].
  split; [apply runBatch_flightTime_f1|].
  destruct (overallScore_formula (runBatch cases)) as (q & Hq & Hf).
  exists q. split; [exact Hq|].
  pose proof (runBatch_flightTime_f1 cases) as H6.
  rewrite runBatch_evaluated in *.
  set (cs := map _ cases) in *.
  pose proof (evaluated_metrics_chain cs "airlineCode") as H1.
  pose proof (evaluated_metrics_chain cs "departureAirportCode") as H2.
  pose proof (evaluated_metrics_chain cs "arrivalAirportCode") as H3.
  pose proof (evaluated_metrics_chain cs "flightDate") as H4.
  pose proof (evaluated_metrics_chain cs "aircraftName") as H5.
  rewrite Hf. split.
  - apply Qle_shift_div_l; lra.
  - apply Qle_shift_div_r; lra.
Qed.

End MetricsBounds.

(* ===================================================================== *)
(** ** The average grade on assembled batches *)
(* ===================================================================== *)

Section AverageGradeBounds.

Local Open Scope Q_scope.

Lemma Qsum_unit_bounds (l : list Q) :
  Forall (fun q => 0 <= q /\ q <= 1) l ->
  0 <= Qsum l /\ Qsum l <= inject_Z (Z.of_nat (length l)).
Proof.
  induction 1 as [|q l [Hq0 Hq1] _ [IH0 IH1]].
  - cbn. split; discriminate.
  - cbn [Qsum fold_right length]. fold (Qsum l).
    rewrite Nat2Z.inj_succ, <- Z.add_1_l, inject_Z_plus.
    change (inject_Z 1) with 1. split; lra.
Qed.

(** The grades that enter the average of an assembled batch are grades
    of [compareField]: 0.0, 0.7, 0.8 or 1.0. *)
Lemma evaluated_grades_unit
    (cases : list (gmap string jsval * gmap string jsval * list string)) :
  Forall (fun q => 0 <= q /\ q <= 1)
         (map grade_value (non_excluded_grades (evaluated cases))).
Proof.
  apply Forall_forall. intros q Hq.
  apply list_elem_of_In, in_map_iff in Hq as (g & <- & Hg).
  unfold non_excluded_grades in Hg.
  apply in_flat_map in Hg as (r & Hr & Hg).
  unfold evaluated in Hr. apply in_map_iff in Hr as ([[e gt] fl] & <- & _).
  cbn [evaluate r_comparison] in Hg. unfold grades_of in Hg.
  remember (values (compareAllFields e gt)) as vs eqn:Hvs.
  apply in_flat_map in Hg as (c & Hc & Hg). subst vs.
  apply list_elem_of_In in Hc. unfold values in Hc.
  apply list_elem_of_fmap in Hc as ([k c'] & -> & Hkc).
  apply elem_of_map_to_list in Hkc. rewrite compareAllFields_lookup in Hkc.
  case_decide; [|discriminate Hkc]. injection Hkc as <-. cbn [snd] in Hg.
  destruct (compareField_verdicts k (get Undefined e k) (get Undefined gt k))
    as [H'|[H'|[H'|[H'|H']]]]; rewrite H' in Hg; cbn in Hg;
    repeat match type of Hg with
           | _ \/ _ => destruct Hg as [Hg|Hg]
           | False => destruct Hg
           end;
    subst g; cbn; split; discriminate.
Qed.

(** X16.  On a batch whose comparisons were built by [compareAllFields]
    the average grade is a number between 0 and 1. *)
Theorem evaluated_avgGrade_bounds
    (cases : list (gmap string jsval * gmap string jsval * list string)) :
  exists q : Q,
    avgGradeRaw (getSummaryStats (evaluated cases)) = Fin q
    /\ 0 <= q /\ q <= 1.
Proof.
  destruct (avgGrade_is_mean cases) as (q & Hq & Hmean).
  fold (evaluated cases) in Hq, Hmean.
  exists q. split; [exact Hq|].
  destruct (Qsum_unit_bounds _ (evaluated_grades_unit cases)) as [H0 H1].
  rewrite length_map in H1.
  set (gs := non_excluded_grades (evaluated cases)) in *.
  destruct (0 <? length gs)%nat eqn:Hn.
  - apply Nat.ltb_lt in Hn.
    assert (Hpos : 0 < inject_Z (Z.of_nat (length gs))).
    { change 0 with (inject_Z 0). rewrite <- Zlt_Qlt. lia. }
    rewrite Hmean. split.
    + apply Qle_shift_div_l; [assumption|]. lra.
    + apply Qle_shift_div_r; [assumption|]. lra.
  - rewrite Hmean. split; discriminate.
Qed.

End AverageGradeBounds.

(* ===================================================================== *)
(** ** The comparator of the second evaluator *)
(* ===================================================================== *)

Section SecondComparator.

Local Open Scope string_scope.

(** X17.  The copy of [compareField] in the second evaluator returns the
    verdict of the first on every field name and all values, although its
    duration case is written differently. *)
Theorem compareField_copies_agree (field : string) (e g : jsval) :
  ComparatorV2.compareField field e g = compareField field e g.
Proof.
  unfold ComparatorV2.compareField, compareField, is_missing,
    getTimeDiffMinutes, ComparatorV2.timeToMinutes,
    grade_0_0, grade_0_7, grade_0_8, grade_1_0.
  destruct (negb (truthy e) || strict_eq e (Str "null") || strict_eq e Null);
    [reflexivity|].
  destruct (String.eqb field "flightNumber"); [reflexivity|].
  destruct (String.eqb field "airlineCode"
            || String.eqb field "departureAirportCode"
            || String.eqb field "arrivalAirportCode"
            || String.eqb field "flightDate"); [reflexivity|].
  destruct (String.eqb field "aircraftName"); [reflexivity|].
  destruct (String.eqb field "flightTime"); [|reflexivity].
  destruct (Comparator.timeToMinutes e), (Comparator.timeToMinutes g);
    reflexivity.
Qed.

End SecondComparator.

(* ===================================================================== *)
(** ** Strings of digits and their pieces *)
(* ===================================================================== *)

Section DigitStrings.

Local Open Scope string_scope.
Local Open Scope Z_scope.

Ltac digit_cases H :=
  apply is_digit_cases in H; cbn [In] in H;
  repeat match type of H with
         | _ \/ _ => destruct H as [H|H]
         | False => destruct H
         end; subst.

Lemma is_digit_not_ws (c : ascii) : is_digit c = true -> is_ws c = false.
Proof. intros H. digit_cases H; reflexivity. Qed.

Lemma is_digit_code (c : ascii) :
  is_digit c = true -> (48 <= nat_of_ascii c <= 57)%nat.
Proof.
  unfold is_digit. intros H. apply andb_true_iff in H as [H1 H2].
  apply Nat.leb_le in H1, H2. lia.
Qed.

(** The bytes of a white space character of two or three bytes are all
    above the digits. *)
Lemma is_ws2_codes (c1 c2 : ascii) :
  is_ws2 c1 c2 = true ->
  (128 <= nat_of_ascii c1)%nat /\ (128 <= nat_of_ascii c2)%nat.
Proof.
  unfold is_ws2. intros H. apply andb_true_iff in H as [H1 H2].
  apply Nat.eqb_eq in H1, H2. lia.
Qed.

Lemma is_ws3_codes (c1 c2 c3 : ascii) :
  is_ws3 c1 c2 c3 = true ->
  (128 <= nat_of_ascii c1)%nat /\ (128 <= nat_of_ascii c3)%nat.
Proof.
  unfold is_ws3. intros H.
  repeat match type of H with
         | (_ || _)%bool = true => apply orb_true_iff in H as [H|H]
         | (_ && _)%bool = true =>
             let H' := fresh "H" in apply andb_true_iff in H as [H H']
         end;
  repeat match goal with
         | H : (_ && _)%bool = true |- _ =>
             let H' := fresh "H" in apply andb_true_iff in H as [H H']
         | H : (_ || _)%bool = true |- _ => apply orb_true_iff in H as [H|H]
         | H : Nat.eqb _ _ = true |- _ => apply Nat.eqb_eq in H
         | H : Nat.leb _ _ = true |- _ => apply Nat.leb_le in H
         end; lia.
Qed.

Lemma drop_ws_digit (back : bool) (c : ascii) (r : list ascii) :
  is_digit c = true -> drop_ws back (c :: r) = c :: r.
Proof.
  intros Hc. pose proof (is_digit_code c Hc) as Hcode.
  cbn [drop_ws]. rewrite (is_digit_not_ws c Hc).
  destruct r as [|c1 r1]; [reflexivity|].
  assert (H2 : (if back then is_ws2 c1 c else is_ws2 c c1) = false).
  { destruct back.
    - destruct (is_ws2 c1 c) eqn:E; [|reflexivity].
      apply is_ws2_codes in E. lia.
    - destruct (is_ws2 c c1) eqn:E; [|reflexivity].
      apply is_ws2_codes in E. lia. }
  rewrite H2. destruct r1 as [|c2 r2]; [reflexivity|].
  assert (H3 : (if back then is_ws3 c2 c1 c else is_ws3 c c1 c2) = false).
  { destruct back.
    - destruct (is_ws3 c2 c1 c) eqn:E; [|reflexivity].
      apply is_ws3_codes in E. lia.
    - destruct (is_ws3 c c1 c2) eqn:E; [|reflexivity].
      apply is_ws3_codes in E. lia. }
  now rewrite H3.
Qed.

Lemma digit_in_10 (c : ascii) :
  is_digit c = true -> digit_in 10 c = Some (digit_value c).
Proof. intros H. digit_cases H; reflexivity. Qed.

Lemma digit_not_special (c : ascii) :
  is_digit c = true ->
  Ascii.eqb c "-"%char = false /\ Ascii.eqb c "+"%char = false
  /\ Ascii.eqb c "I"%char = false
  /\ Ascii.eqb c "x"%char || Ascii.eqb c "X"%char = false
  /\ Ascii.eqb c "o"%char || Ascii.eqb c "O"%char = false
  /\ Ascii.eqb c "b"%char || Ascii.eqb c "B"%char = false
  /\ Ascii.eqb c "n"%char = false.
Proof. intros H. digit_cases H; repeat split. Qed.

Lemma span_digits_all (cs : list ascii) :
  Forall (fun c => is_digit c = true) cs ->
  span_digits 10 cs = (map digit_value cs, []).
Proof.
  induction 1 as [|c cs Hc _ IH]; [reflexivity|].
  cbn [span_digits map]. now rewrite (digit_in_10 c Hc), IH.
Qed.

Lemma trim_digits (cs : list ascii) :
  Forall (fun c => is_digit c = true) cs -> trim cs = cs.
Proof.
  intros H. unfold trim.
  assert (Hdrop : forall (back : bool) (l : list ascii),
             Forall (fun c => is_digit c = true) l -> drop_ws back l = l).
  { intros back l Hl. destruct Hl as [|c l Hc _]; [reflexivity|].
    now apply drop_ws_digit. }
  rewrite (Hdrop false cs H).
  rewrite (Hdrop true (rev cs)) by (now apply Forall_rev).
  apply rev_involutive.
Qed.

(** An integer that binary64 holds is far from the magnitudes that round
    to an infinity. *)
Lemma overflow_of_Z (z : Z) : Z.abs z <= 2 ^ 53 -> overflow (of_Z z) = of_Z z.
Proof.
  intros Hz. unfold overflow, of_Z.
  assert (Hlt : Qle_bool (inject_Z overflow_from) (Qabs (inject_Z z)) = false).
  { unfold Qle_bool, Qabs, inject_Z. cbn [Qnum Qden].
    rewrite !Z.mul_1_r. apply Z.leb_gt.
    apply Z.le_lt_trans with (2 ^ 53); [exact Hz|].
    apply Z.ltb_lt. vm_compute. reflexivity. }
  now rewrite Hlt.
Qed.

Lemma scale10_zero (v : Z) : scale10 v 0 = of_Z v.
Proof. unfold scale10, of_Z. cbn. now rewrite Z.mul_1_r. Qed.

Lemma parse_signed_decimal_digits (cs : list ascii) :
  cs <> [] -> Forall (fun c => is_digit c = true) cs ->
  parse_signed_decimal cs = of_Z (digits_value 10 (map digit_value cs)).
Proof.
  intros Hne H. destruct H as [|c r Hc Hr]; [contradiction|].
  destruct (digit_not_special c Hc) as (Hm & Hp & HI & _).
  unfold parse_signed_decimal. rewrite Hm, Hp.
  assert (Hinf : list_ascii_eqb (c :: r) infinity_word = false).
  { unfold list_ascii_eqb, infinity_word. cbn. now rewrite HI. }
  rewrite Hinf. unfold parse_unsigned_decimal.
  rewrite (span_digits_all (c :: r)) by (now constructor).
  cbn [map length Nat.eqb negb parse_exponent app].
  rewrite app_nil_r. cbn [Z.of_nat Z.sub Z.opp]. apply scale10_zero.
Qed.

(** [Number] reads a string of decimal digits as the number it writes,
    when binary64 holds that number. *)
Lemma Number_digits (s : string) :
  digits_only s -> decimal_value s <= 2 ^ 53 ->
  Number s = of_Z (decimal_value s).
Proof.
  intros H Hbound.
  assert (Hpos : 0 <= decimal_value s).
  { unfold decimal_value, digits_value. unfold digits_only in H.
    assert (Hacc : forall (l : list ascii) (acc : Z),
               Forall (fun c => is_digit c = true) l -> 0 <= acc ->
               0 <= fold_left (fun a d => a * 10 + d) (map digit_value l) acc).
    { induction l as [|c l IH]; intros acc Hl Hacc; [exact Hacc|].
      apply Forall_cons in Hl as [Hc Hl]. cbn [map fold_left].
      apply IH; [exact Hl|]. pose proof (is_digit_code c Hc).
      unfold digit_value. lia. }
    now apply Hacc. }
  assert (Hlit : numeric_literal (trim (list_ascii_of_string s))
                 = of_Z (decimal_value s)).
  { unfold digits_only, decimal_value, numeric_literal in *.
    rewrite (trim_digits _ H).
    destruct (list_ascii_of_string s) as [|c0 [|c1 r]] eqn:Hs.
    - reflexivity.
    - now apply parse_signed_decimal_digits.
    - assert (H1 : is_digit c1 = true).
      { apply Forall_cons in H as [_ H]. now apply Forall_cons in H as [H _]. }
      destruct (digit_not_special c1 H1) as (_ & _ & _ & Hx & Ho & Hb & _).
      rewrite Hx, Ho, Hb.
      rewrite (parse_signed_decimal_digits (c0 :: c1 :: r)) by easy.
      now destruct (Ascii.eqb c0 "0"%char). }
  unfold Number. rewrite Hlit. apply overflow_of_Z. lia.
Qed.

(** The decimal writing of a natural number. *)
Lemma string_of_uint_digits (d : Decimal.uint) :
  digits_only (NilEmpty.string_of_uint d)
  /\ forall acc : Z, 0 <= acc ->
       fold_left (fun a x => a * 10 + x)
                 (map digit_value
                      (list_ascii_of_string (NilEmpty.string_of_uint d))) acc
       = Z.of_nat (Nat.of_uint_acc d (Z.to_nat acc)).
Proof.
  unfold digits_only.
  induction d as [|d [IH1 IH2]|d [IH1 IH2]|d [IH1 IH2]|d [IH1 IH2]
                  |d [IH1 IH2]|d [IH1 IH2]|d [IH1 IH2]|d [IH1 IH2]
                  |d [IH1 IH2]|d [IH1 IH2]].
  1:{ split; [constructor|]. intros acc Hacc. cbn. lia. }
  all: split; [constructor; [reflexivity|exact IH1]|].
  all: intros acc Hacc.
  all: cbn [NilEmpty.string_of_uint list_ascii_of_string map fold_left
            Nat.of_uint_acc].
  all: match goal with
       | |- context [digit_value ?c] =>
           let v := eval vm_compute in (digit_value c) in
           change (digit_value c) with v
       end.
  all: rewrite IH2 by lia.
  all: rewrite Nat.tail_mul_spec.
  all: f_equal; f_equal; lia.
Qed.

Lemma toString_digits (n : nat) :
  digits_only (toString n) /\ decimal_value (toString n) = Z.of_nat n.
Proof.
  unfold toString, decimal_value, digits_value.
  destruct (string_of_uint_digits (Nat.to_uint n)) as [H1 H2].
  split; [exact H1|].
  rewrite (H2 0) by lia. cbn [Z.to_nat].
  f_equal. exact (Unsigned.of_to n).
Qed.

Lemma padStart2_digits (s : string) :
  digits_only s ->
  digits_only (padStart2 s) /\ decimal_value (padStart2 s) = decimal_value s
  /\ (2 <= String.length (padStart2 s))%nat.
Proof.
  unfold digits_only, decimal_value, digits_value, padStart2. intros H.
  destruct s as [|c [|c' r]]; cbn [String.length].
  - repeat split; [repeat constructor|cbn; lia].
  - repeat split; [constructor; [reflexivity|exact H]|cbn; lia].
  - repeat split; [exact H|cbn; lia].
Qed.

(** Pieces of a string cut at a character. *)
Lemma split_char_nonempty (sep : ascii) (s : string) : split_char sep s <> [].
Proof.
  destruct s as [|c r]; cbn [split_char]; [discriminate|].
  destruct (Ascii.eqb c sep); [discriminate|].
  destruct (split_char sep r); discriminate.
Qed.

Lemma split_char_lacks (sep : ascii) (s : string) :
  lacks sep s = true -> split_char sep s = [s].
Proof.
  induction s as [|c r IH]; [reflexivity|].
  cbn [lacks split_char]. intros H. apply andb_true_iff in H as [Hc Hr].
  apply negb_true_iff in Hc. now rewrite Hc, (IH Hr).
Qed.

Lemma append_nil_l (s : string) : EmptyString ++ s = s.
Proof. reflexivity. Qed.

Lemma append_cons (c : ascii) (r s : string) :
  String c r ++ s = String c (r ++ s).
Proof. reflexivity. Qed.

Lemma append_nil_r (s : string) : s ++ EmptyString = s.
Proof.
  induction s as [|c r IH]; [reflexivity|]. now rewrite append_cons, IH.
Qed.

Lemma append_assoc (a b c : string) : (a ++ b) ++ c = a ++ (b ++ c).
Proof.
  induction a as [|x r IH]; [reflexivity|].
  now rewrite !append_cons, IH.
Qed.

Lemma split_char_app (sep : ascii) (a b : string) :
  lacks sep a = true ->
  split_char sep (a ++ String sep b) = a :: split_char sep b.
Proof.
  induction a as [|c r IH].
  - intros _. rewrite append_nil_l. cbn [split_char].
    now rewrite Ascii.eqb_refl.
  - cbn [lacks]. intros H. apply andb_true_iff in H as [Hc Hr].
    apply negb_true_iff in Hc. rewrite append_cons. cbn [split_char].
    now rewrite Hc, (IH Hr).
Qed.

Lemma split_colon_split_char (s : string) :
  split_colon s = split_char ":"%char s.
Proof.
  induction s as [|c r IH]; [reflexivity|].
  cbn [split_colon split_char]. now rewrite IH.
Qed.

Lemma lacks_app (sep : ascii) (a b : string) :
  lacks sep (a ++ b) = lacks sep a && lacks sep b.
Proof.
  induction a as [|c r IH]; [reflexivity|].
  rewrite append_cons. cbn [lacks]. rewrite IH. now rewrite andb_assoc.
Qed.

Lemma split_char_pieces_lack (sep : ascii) (s : string) :
  Forall (fun p => lacks sep p = true) (split_char sep s).
Proof.
  induction s as [|c r IH]; cbn [split_char].
  - now repeat constructor.
  - destruct (Ascii.eqb c sep) eqn:Hc.
    + now constructor.
    + destruct (split_char sep r) as [|h t].
      * repeat constructor. cbn [lacks]. now rewrite Hc.
      * apply Forall_cons in IH as [Hh Ht]. constructor; [|exact Ht].
        cbn [lacks]. now rewrite Hc, Hh.
Qed.

Lemma digits_lack_colon (s : string) :
  digits_only s -> lacks ":"%char s = true.
Proof.
  unfold digits_only. induction s as [|c r IH]; [reflexivity|].
  cbn [list_ascii_of_string lacks]. intros H.
  apply Forall_cons in H as [Hc Hr].
  now rewrite (digit_not_colon c Hc), (IH Hr).
Qed.

End DigitStrings.

(* ===================================================================== *)
(** ** The batch evaluator: durations and dates *)
(* ===================================================================== *)

Section BatchEvaluator.

Local Open Scope string_scope.
Local Open Scope Z_scope.

Lemma nonempty_truthy (s : string) :
  (1 <= String.length s)%nat -> truthy (Str s) = true.
Proof. destruct s; cbn; [lia|reflexivity]. Qed.

(** The two [timeToMinutes] agree on a truthy string other than
    ['null']. *)
Lemma timeToMinutes_variants (s : string) :
  truthy (Str s) = true -> s <> "null" ->
  Comparator.timeToMinutes (Str s) = Some (BatchEval.timeToMinutes (Str s)).
Proof.
  intros Ht Hn. unfold Comparator.timeToMinutes, BatchEval.timeToMinutes.
  rewrite Ht. cbn [negb orb strict_eq jsval_eqb].
  apply String.eqb_neq in Hn. now rewrite Hn.
Qed.

(** The minutes of two digit strings joined by a colon, each writing a
    number binary64 holds. *)
Lemma timeToMinutes_of_digits (A B : string) :
  digits_only A -> digits_only B -> (1 <= String.length A)%nat ->
  decimal_value A <= 2 ^ 53 -> decimal_value B <= 2 ^ 53 ->
  BatchEval.timeToMinutes (Str (A ++ String ":"%char B))
  = of_Z (decimal_value A * 60 + decimal_value B)
  /\ Comparator.timeToMinutes (Str (A ++ String ":"%char B))
     = Some (of_Z (decimal_value A * 60 + decimal_value B)).
Proof.
  intros HA HB Hlen HvA HvB.
  assert (Ht : truthy (Str (A ++ String ":"%char B)) = true).
  { destruct A; [cbn in Hlen; lia|reflexivity]. }
  assert (Hn : A ++ String ":"%char B <> "null").
  { destruct A as [|c r]; [cbn in Hlen; lia|].
    rewrite append_cons. intros E. injection E as Hc _.
    unfold digits_only in HA. cbn [list_ascii_of_string] in HA.
    apply Forall_cons in HA as [HA _]. subst c. discriminate HA. }
  assert (Hb : BatchEval.timeToMinutes (Str (A ++ String ":"%char B))
               = of_Z (decimal_value A * 60 + decimal_value B)).
  { unfold BatchEval.timeToMinutes. rewrite Ht. cbn [negb].
    rewrite split_colon_split_char,
      (split_char_app _ _ _ (digits_lack_colon _ HA)),
      (split_char_lacks _ _ (digits_lack_colon _ HB)).
    cbn [map nth].
    rewrite (Number_digits _ HA HvA), (Number_digits _ HB HvB).
    now rewrite js_mul_int, js_add_int. }
  split; [exact Hb|]. now rewrite (timeToMinutes_variants _ Ht Hn), Hb.
Qed.

Lemma formatDurationToTime_shape (n : nat) :
  exists A B : string,
    BatchEval.formatDurationToTime n = A ++ String ":"%char B
    /\ digits_only A /\ digits_only B /\ (2 <= String.length A)%nat
    /\ decimal_value A * 60 + decimal_value B = Z.of_nat n
    /\ 0 <= decimal_value A /\ 0 <= decimal_value B.
Proof.
  exists (padStart2 (toString (Nat.div n 60))),
         (padStart2 (toString (Nat.modulo n 60))).
  destruct (toString_digits (Nat.div n 60)) as [Hd1 Hv1].
  destruct (toString_digits (Nat.modulo n 60)) as [Hd2 Hv2].
  destruct (padStart2_digits _ Hd1) as (HA & HvA & HlA).
  destruct (padStart2_digits _ Hd2) as (HB & HvB & _).
  rewrite HvA, HvB, Hv1, Hv2.
  repeat split; try assumption; try lia.
  pose proof (Nat.div_mod_eq n 60). lia.
Qed.

(** Reading back the formatted text of a safe integer. *)
Lemma formatDurationToTime_minutes (n : nat) :
  safe_minutes n ->
  BatchEval.timeToMinutes (Str (BatchEval.formatDurationToTime n))
  = of_Z (Z.of_nat n)
  /\ Comparator.timeToMinutes (Str (BatchEval.formatDurationToTime n))
     = Some (of_Z (Z.of_nat n)).
Proof.
  unfold safe_minutes. intros Hsafe.
  destruct (formatDurationToTime_shape n)
    as (A & B & -> & HA & HB & Hl & Hv & HA0 & HB0).
  rewrite <- Hv. apply timeToMinutes_of_digits; try assumption; lia.
Qed.

(** X18.  Reading back a formatted duration gives the minutes it was
    formatted from, with the [timeToMinutes] of the batch evaluator and
    with the one of the comparator, for every whole number of minutes
    below 2^53 (hours of three digits and more included): up to there the
    quotient by 60, the remainder and the sum read back are exact in
    binary64. *)
Theorem formatDurationToTime_round_trip (n : nat) (Hn : safe_minutes n) :
  BatchEval.timeToMinutes (Str (BatchEval.formatDurationToTime n))
  = of_Z (Z.of_nat n)
  /\ Comparator.timeToMinutes (Str (BatchEval.formatDurationToTime n))
     = Some (of_Z (Z.of_nat n)).
Proof. now apply formatDurationToTime_minutes. Qed.

Lemma formatDurationToTime_round_trip_witness :
  safe_minutes (100 * 60 + 5)
  /\ BatchEval.formatDurationToTime (100 * 60 + 5) = "100:05"
  /\ BatchEval.timeToMinutes (Str "100:05") = of_Z 6005
  /\ Comparator.timeToMinutes (Str "100:05") = Some (of_Z 6005).
Proof.
  assert (Hsafe : safe_minutes (100 * 60 + 5)).
  { unfold safe_minutes. apply Z.ltb_lt. vm_compute. reflexivity. }
  split; [exact Hsafe|]. split; [vm_compute; reflexivity|].
  exact (formatDurationToTime_round_trip (100 * 60 + 5) Hsafe).
Defined.

Lemma formatDurationToTime_not_missing (n : nat) :
  is_missing (Str (BatchEval.formatDurationToTime n)) = false.
Proof.
  destruct (formatDurationToTime_shape n) as (A & B & -> & HA & HB & Hl & _).
  apply is_missing_false. eexists. split; [reflexivity|].
  destruct A as [|c r]; [cbn in Hl; lia|]. rewrite append_cons.
  split; [discriminate|]. intros E. injection E as Hc _.
  unfold digits_only in HA. cbn [list_ascii_of_string] in HA.
  apply Forall_cons in HA as [HA _]. subst c. discriminate HA.
Qed.

(** X19.  Two durations formatted by [formatDurationToTime] from whole
    numbers of minutes below 2^53 are graded by [compareField] according
    to the difference of the minutes they were formatted from: at most 15,
    full credit; at most 30, grade 0.7; otherwise no match. *)
Theorem formatted_durations_graded_by_minutes (n m : nat)
    (Hn : safe_minutes n) (Hm : safe_minutes m) :
  compareField "flightTime" (Str (BatchEval.formatDurationToTime n))
               (Str (BatchEval.formatDurationToTime m))
  = duration_tier (Z.abs (Z.of_nat n - Z.of_nat m)).
Proof.
  destruct (formatDurationToTime_minutes n Hn) as [_ Htn].
  destruct (formatDurationToTime_minutes m Hm) as [_ Htm].
  apply (compareField_flightTime_finite _ _ _ _
           (formatDurationToTime_not_missing n) Htn Htm).
Qed.

Lemma formatted_durations_graded_by_minutes_witness :
  safe_minutes (100 * 60 + 5) /\ safe_minutes (100 * 60 + 35)
  /\ compareField "flightTime" (Str "100:05") (Str "100:35")
     = mkFC (Some true) (Some grade_0_7).
Proof.
  assert (H1 : safe_minutes (100 * 60 + 5)).
  { unfold safe_minutes. apply Z.ltb_lt. vm_compute. reflexivity. }
  assert (H2 : safe_minutes (100 * 60 + 35)).
  { unfold safe_minutes. apply Z.ltb_lt. vm_compute. reflexivity. }
  split; [exact H1|]. split; [exact H2|].
  exact (formatted_durations_graded_by_minutes (100 * 60 + 5) (100 * 60 + 35)
           H1 H2).
Defined.

(** X20.  Below 100 hours a formatted duration has the form [HH:MM] and
    denotes the minutes it was formatted from. *)
Theorem formatDurationToTime_hhmm (n : nat) (Hn : (n < 100 * 60)%nat) :
  is_hhmm (BatchEval.formatDurationToTime n) = true
  /\ hhmm_minutes (BatchEval.formatDurationToTime n) = Z.of_nat n.
Proof.
  assert (Hall :
    forallb (fun k => is_hhmm (BatchEval.formatDurationToTime k)
                      && (hhmm_minutes (BatchEval.formatDurationToTime k)
                          =? Z.of_nat k))
            (seq 0 (100 * 60)) = true) by (vm_compute; reflexivity).
  rewrite forallb_forall in Hall.
  assert (Hin : In n (seq 0 (100 * 60))) by (apply in_seq; lia).
  specialize (Hall n Hin). apply andb_true_iff in Hall as [H1 H2].
  split; [exact H1|]. now apply Z.eqb_eq.
Qed.

Lemma formatDurationToTime_hhmm_witness :
  (90 < 100 * 60)%nat
  /\ is_hhmm (BatchEval.formatDurationToTime 90) = true
  /\ hhmm_minutes (BatchEval.formatDurationToTime 90) = 90.
Proof.
  assert (H : (90 < 100 * 60)%nat) by lia.
  split; [exact H|]. exact (formatDurationToTime_hhmm 90 H).
Defined.

Lemma js_sub_NaN_r (a : jsnum) : js_sub a NaN = NaN.
Proof. now destruct a. Qed.

Lemma truthy_is_Str (v : jsval) :
  truthy v = true -> exists s, v = Str s /\ s <> "".
Proof.
  destruct v as [| |s]; cbn; try discriminate.
  intros H. exists s. split; [reflexivity|].
  apply negb_true_iff in H. now apply String.eqb_neq.
Qed.

(** X21.  The graded comparator and the duration test of the batch
    evaluator agree on all values: [compareField] gives the flight time
    full credit exactly when [compareDuration] accepts it with tolerance
    15, grade 0.7 when it is accepted with tolerance 30 only, and no
    credit otherwise. *)
Theorem compareField_by_compareDuration (e g : jsval) :
  compareField "flightTime" e g
  = if BatchEval.compareDuration e g (of_Z 15) then full_credit
    else if BatchEval.compareDuration e g (of_Z 30) then partial_credit
    else wrong.
Proof.
  unfold BatchEval.compareDuration.
  destruct (truthy e) eqn:He; cbn [negb orb].
  2:{ apply compareField_missing. unfold is_missing. now rewrite He. }
  destruct (truthy g) eqn:Hg; cbn [negb].
  2:{ destruct (is_missing e) eqn:Hm; [now apply compareField_missing|].
      rewrite (compareField_flightTime _ _ Hm). unfold getTimeDiffMinutes.
      assert (Hgn : Comparator.timeToMinutes g = None).
      { unfold Comparator.timeToMinutes. now rewrite Hg. }
      rewrite Hgn. now destruct (Comparator.timeToMinutes e). }
  destruct (truthy_is_Str _ He) as (s & -> & Hs).
  destruct (truthy_is_Str _ Hg) as (t & -> & Ht).
  destruct (String.eqb_spec s "null") as [->|Hsn].
  { reflexivity. }
  assert (Hm : is_missing (Str s) = false).
  { apply is_missing_false. eauto. }
  rewrite (compareField_flightTime _ _ Hm). unfold getTimeDiffMinutes.
  rewrite (timeToMinutes_variants _ He Hsn).
  destruct (String.eqb_spec t "null") as [->|Htn].
  - change (Comparator.timeToMinutes (Str "null")) with (@None jsnum).
    change (BatchEval.timeToMinutes (Str "null")) with NaN.
    now rewrite js_sub_NaN_r.
  - now rewrite (timeToMinutes_variants _ Hg Htn).
Qed.

Lemma padStart2_id (s : string) :
  (2 <= String.length s)%nat -> padStart2 s = s.
Proof.
  destruct s as [|c [|c' r]]; cbn [String.length]; try lia. reflexivity.
Qed.

Lemma padStart2_length (s : string) : (2 <= String.length (padStart2 s))%nat.
Proof.
  unfold padStart2. destruct s as [|c [|c' r]]; cbn [String.length]; lia.
Qed.

Lemma padStart2_lacks_colon (s : string) :
  lacks ":"%char s = true -> lacks ":"%char (padStart2 s) = true.
Proof.
  unfold padStart2. destruct s as [|c [|c' r]]; cbn [String.length]; auto.
Qed.

(** What [formatDuration] returns: two pieces without a colon, the first
    of two characters at least. *)
Lemma formatDuration_shape (s : string) :
  exists A B : string,
    BatchEval.formatDuration s = A ++ String ":"%char B
    /\ lacks ":"%char A = true /\ lacks ":"%char B = true
    /\ (2 <= String.length A)%nat.
Proof.
  unfold BatchEval.formatDuration. rewrite split_colon_split_char.
  pose proof (split_char_pieces_lack ":"%char s) as Hp.
  pose proof (split_char_nonempty ":"%char s) as Hne.
  destruct (split_char ":"%char s) as [|h t]; [contradiction|].
  apply Forall_cons in Hp as [Hh Ht].
  exists (padStart2 h), (template_piece (nth_error (h :: t) 1)).
  repeat split.
  - now apply padStart2_lacks_colon.
  - destruct t as [|b t']; [reflexivity|].
    now apply Forall_cons in Ht as [Hb _].
  - apply padStart2_length.
Qed.

(** X22.  [formatDuration] is idempotent, and it leaves a duration
    written [HH:MM] unchanged. *)
Theorem formatDuration_idempotent (s : string) :
  BatchEval.formatDuration (BatchEval.formatDuration s)
  = BatchEval.formatDuration s
  /\ (is_hhmm s = true -> BatchEval.formatDuration s = s).
Proof.
  assert (Hfix : forall A B : string,
             lacks ":"%char A = true -> lacks ":"%char B = true ->
             (2 <= String.length A)%nat ->
             BatchEval.formatDuration (A ++ String ":"%char B)
             = A ++ String ":"%char B).
  { intros A B HA HB Hl. unfold BatchEval.formatDuration.
    rewrite split_colon_split_char, (split_char_app _ _ _ HA),
      (split_char_lacks _ _ HB).
    cbn [hd nth_error template_piece]. now rewrite (padStart2_id _ Hl). }
  split.
  - destruct (formatDuration_shape s) as (A & B & -> & HA & HB & Hl).
    now apply Hfix.
  - intros Hh.
    destruct (is_hhmm_shape s Hh) as (a & b & d & e & -> & Ha & Hb & Hd & He).
    apply (Hfix (String a (String b EmptyString))
                (String d (String e EmptyString))).
    + cbn [lacks]. now rewrite (digit_not_colon a Ha), (digit_not_colon b Hb).
    + cbn [lacks]. now rewrite (digit_not_colon d Hd), (digit_not_colon e He).
    + cbn. lia.
Qed.

Lemma formatDuration_idempotent_witness :
  is_hhmm "01:11" = true /\ BatchEval.formatDuration "01:11" = "01:11".
Proof.
  split; [reflexivity|].
  exact (proj2 (formatDuration_idempotent "01:11") eq_refl).
Defined.

(** X23.  A timestamp that starts with year, month and day separated by
    dashes, followed or not by a space and the time of day, is turned
    into day, month and year separated by dashes. *)
Theorem formatDateFromEnriched_swaps (y m d t : string)
    (Hy : lacks "-"%char y = true) (Hm : lacks "-"%char m = true)
    (Hd : lacks "-"%char d = true)
    (Hy' : lacks " "%char y = true) (Hm' : lacks " "%char m = true)
    (Hd' : lacks " "%char d = true) :
  BatchEval.formatDateFromEnriched
    (y ++ String "-"%char (m ++ String "-"%char (d ++ String " "%char t)))
  = d ++ String "-"%char (m ++ String "-"%char y)
  /\ BatchEval.formatDateFromEnriched
       (y ++ String "-"%char (m ++ String "-"%char d))
     = d ++ String "-"%char (m ++ String "-"%char y).
Proof.
  assert (Hdate : lacks " "%char
                    (y ++ String "-"%char (m ++ String "-"%char d)) = true).
  { rewrite lacks_app. cbn [lacks]. rewrite lacks_app. cbn [lacks].
    now rewrite Hy', Hm', Hd'. }
  assert (Hpieces : split_char "-"%char
                      (y ++ String "-"%char (m ++ String "-"%char d))
                    = [y; m; d]).
  { now rewrite (split_char_app _ _ _ Hy), (split_char_app _ _ _ Hm),
      (split_char_lacks _ _ Hd). }
  assert (Hre : y ++ String "-"%char (m ++ String "-"%char (d ++ String " "%char t))
                = (y ++ String "-"%char (m ++ String "-"%char d))
                  ++ String " "%char t).
  { now rewrite append_assoc, append_cons, append_assoc, append_cons. }
  unfold BatchEval.formatDateFromEnriched. split.
  - rewrite Hre, (split_char_app _ _ _ Hdate). cbn [hd].
    rewrite Hpieces. cbn [nth_error template_piece].
    now rewrite !append_cons, !append_nil_l.
  - rewrite (split_char_lacks _ _ Hdate). cbn [hd].
    rewrite Hpieces. cbn [nth_error template_piece].
    now rewrite !append_cons, !append_nil_l.
Qed.

Lemma formatDateFromEnriched_swaps_witness :
  BatchEval.formatDateFromEnriched "2025-12-16 10:00" = "16-12-2025".
Proof.
  exact (proj1 (formatDateFromEnriched_swaps "2025" "12" "16" "10:00"
                  eq_refl eq_refl eq_refl eq_refl eq_refl eq_refl)).
Defined.

End BatchEvaluator.

(* ===================================================================== *)
(** ** One line of CSV *)
(* ===================================================================== *)

Section CsvLine.

Local Open Scope string_scope.

Lemma chars_app (a b : string) :
  list_ascii_of_string (a ++ b)
  = (list_ascii_of_string a ++ list_ascii_of_string b)%list.
Proof.
  induction a as [|c r IH]; [reflexivity|].
  rewrite append_cons. cbn [list_ascii_of_string app]. now rewrite IH.
Qed.

(** Inside quotes: the field is read up to its closing quote, a doubled
    quote giving one quote. *)
Lemma parse_loop_quoted (f : string) (rest : list ascii) (cur : string)
    (res : list string) :
  not_a_quote_next rest ->
  parse_loop (list_ascii_of_string (double_quotes f) ++ dquote :: rest)%list
             cur true res
  = parse_loop rest (cur ++ f) false res.
Proof.
  intros Hrest. revert cur.
  induction f as [|c r IH]; intros cur.
  - cbn [double_quotes list_ascii_of_string app parse_loop].
    rewrite Ascii.eqb_refl, append_nil_r.
    destruct rest as [|next rest']; [reflexivity|].
    cbn in Hrest. now rewrite Hrest.
  - cbn [double_quotes]. destruct (Ascii.eqb c dquote) eqn:Hc.
    + apply Ascii.eqb_eq in Hc. subst c.
      cbn [list_ascii_of_string app parse_loop].
      rewrite Ascii.eqb_refl. cbn [andb]. rewrite IH.
      now rewrite append_assoc, append_cons, append_nil_l.
    + cbn [list_ascii_of_string app parse_loop]. rewrite Hc.
      cbn [negb]. rewrite andb_false_r. rewrite IH.
      now rewrite append_assoc, append_cons, append_nil_l.
Qed.

(** A quoted field at the start of what is left of the line. *)
Lemma parse_loop_field (f : string) (rest : list ascii) (cur : string)
    (res : list string) :
  not_a_quote_next rest ->
  parse_loop (list_ascii_of_string (quote_field f) ++ rest)%list cur false res
  = parse_loop rest (cur ++ f) false res.
Proof.
  intros Hrest. unfold quote_field.
  cbn [list_ascii_of_string app]. rewrite chars_app.
  cbn [list_ascii_of_string]. rewrite <- app_assoc. cbn [app].
  rewrite <- (parse_loop_quoted f rest cur res Hrest).
  cbn [parse_loop]. rewrite Ascii.eqb_refl.
  destruct (list_ascii_of_string (double_quotes f) ++ dquote :: rest)%list;
    reflexivity.
Qed.

Lemma parse_loop_quoted_fields (fields : list string) (res : list string) :
  fields <> [] ->
  parse_loop (list_ascii_of_string (join_comma (map quote_field fields)))
             EmptyString false res
  = (res ++ fields)%list.
Proof.
  revert res. induction fields as [|f fs IH]; intros res Hne; [contradiction|].
  destruct fs as [|f2 fs].
  - cbn [map join_comma].
    rewrite <- (app_nil_r (list_ascii_of_string (quote_field f))).
    rewrite parse_loop_field by exact I. reflexivity.
  - cbn [map join_comma]. cbn [map] in IH.
    rewrite chars_app, append_cons, append_nil_l.
    cbn [list_ascii_of_string].
    rewrite parse_loop_field by reflexivity.
    cbn [parse_loop]. change (Ascii.eqb "," dquote) with false.
    cbn [Ascii.eqb Bool.eqb andb negb]. rewrite append_nil_l.
    rewrite IH by discriminate. now rewrite <- app_assoc.
Qed.

(** X24.  A line of fields written between quotes, the quotes inside a
    field doubled, and separated by commas is read back as these fields,
    whatever characters they hold (commas and quotes included). *)
Theorem parseCSVLine_reads_quoted_fields (fields : list string)
    (Hne : fields <> []) :
  parseCSVLine (join_comma (map quote_field fields)) = fields.
Proof.
  unfold parseCSVLine. now rewrite parse_loop_quoted_fields.
Qed.

Lemma parseCSVLine_reads_quoted_fields_witness :
  ["a,b"; String dquote "x"; ""] <> []
  /\ parseCSVLine (join_comma (map quote_field ["a,b"; String dquote "x"; ""]))
     = ["a,b"; String dquote "x"; ""].
Proof.
  assert (H : ["a,b"; String dquote "x"; ""] <> []) by discriminate.
  split; [exact H|]. exact (parseCSVLine_reads_quoted_fields _ H).
Defined.

Lemma parse_loop_unquoted (s cur : string) (res : list string) :
  lacks dquote s = true ->
  parse_loop (list_ascii_of_string s) cur false res
  = (res ++ match split_char ","%char s with
            | h :: t => String.append cur h :: t
            | [] => [cur]
            end)%list.
Proof.
  revert cur res. induction s as [|c r IH]; intros cur res Hl.
  - cbn. now rewrite append_nil_r.
  - cbn [lacks] in Hl. apply andb_true_iff in Hl as [Hc Hr].
    apply negb_true_iff in Hc.
    cbn [list_ascii_of_string parse_loop split_char]. rewrite Hc.
    cbn [negb]. rewrite andb_true_r.
    pose proof (split_char_nonempty ","%char r) as Hne.
    destruct (Ascii.eqb c ","%char).
    + rewrite (IH _ _ Hr). rewrite append_nil_r.
      destruct (split_char ","%char r) as [|h t]; [contradiction|].
      now rewrite append_nil_l, <- app_assoc.
    + rewrite (IH _ _ Hr).
      destruct (split_char ","%char r) as [|h t]; [contradiction|].
      now rewrite append_assoc, append_cons, append_nil_l.
Qed.

(** X25.  On a line without a quote character [parseCSVLine] is
    [split(',')]: in particular it returns one field at least, and one
    empty field for the empty line. *)
Theorem parseCSVLine_unquoted (line : string)
    (Hq : lacks dquote line = true) :
  parseCSVLine line = split_char ","%char line.
Proof.
  unfold parseCSVLine. rewrite (parse_loop_unquoted _ _ _ Hq).
  pose proof (split_char_nonempty ","%char line) as Hne.
  destruct (split_char ","%char line) as [|h t]; [contradiction|].
  reflexivity.
Qed.

Lemma parseCSVLine_unquoted_witness :
  lacks dquote "id,choice,,x" = true
  /\ parseCSVLine "id,choice,,x" = ["id"; "choice"; ""; "x"].
Proof.
  split; [reflexivity|].
  exact (parseCSVLine_unquoted "id,choice,,x" eq_refl).
Defined.

End CsvLine.
